(** * The chat client of [client/src/App.js]

    A shallow embedding of the React component [App]: its six state
    variables, its event handlers and the callbacks they leave with the
    browser (two [fetch] promise chains and a [FileReader]).

    A handler reads the state variables of the render that created it and
    asks for updates with the [setX] functions; a callback created inside
    a handler keeps the values its handler saw.  The embedding keeps the
    two apart: a handler is a function from the rendered state to a list
    of commands, and a callback is a [Task] that stores what the closure
    captured.  What the component renders, and the effect that scrolls
    the chat box after each change of the conversation, are left out. *)

From Stdlib Require Import QArith Ascii String.
From stdpp Require Import base strings list.

Set Warnings "-register-all".
Local Open Scope string_scope.
Local Open Scope list_scope.

(** ** Values *)

(** What [response.json()] can decode to.  An object is its list of
    properties, in order. *)
Inductive json : Type :=
| JNull
| JBool (b : bool)
| JNum (q : Q)
| JStr (s : string)
| JArr (items : list json)
| JObj (fields : list (string * json)).

(** A value met at run time: a decoded value, or [undefined]. *)
Inductive jsval : Type :=
| VUndefined
| VJson (j : json).

Definition VBool (b : bool) : jsval := VJson (JBool b).
Definition VStr (s : string) : jsval := VJson (JStr s).

(** JavaScript's ToBoolean, on the values above. *)
Definition truthy (v : jsval) : bool :=
  match v with
  | VUndefined => false
  | VJson JNull => false
  | VJson (JBool b) => b
  | VJson (JNum q) => negb (Qeq_bool q 0)
  | VJson (JStr s) => negb (String.eqb s "")
  | VJson (JArr _) => true
  | VJson (JObj _) => true
  end.

Fixpoint assoc (key : string) (fields : list (string * json)) : jsval :=
  match fields with
  | [] => VUndefined
  | (k, v) :: rest => if String.eqb k key then VJson v else assoc key rest
  end.

(** Is [key] an own property of the decoded value? *)
Definition has_field (data : json) (key : string) : bool :=
  match data with
  | JObj fields => existsb (fun kv => String.eqb (fst kv) key) fields
  | _ => false
  end.

(** What a handler call ends with. *)
Inductive outcome (A : Type) : Type :=
| Returned (a : A)
| Thrown (err : string).
Arguments Returned {A} a.
Arguments Thrown {A} err.

(** [data.key], for the two property names the client reads ([response]
    and [chart], which no built-in prototype defines): reading a property
    of [null] throws, a missing property is [undefined]. *)
Definition prop (data : json) (key : string) : outcome jsval :=
  match data with
  | JNull => Thrown "TypeError"
  | JObj fields => Returned (assoc key fields)
  | _ => Returned VUndefined
  end.

(** ** Messages, files, preview rows *)

Inductive MsgType : Type := user | bot | bot_chart.

(** The objects of the [response] array: [{ type, text }] or
    [{ type, chartSpec }]; a property an object does not have reads as
    [undefined]. *)
Record Message : Type := mkMessage {
  type : MsgType;
  text : jsval;
  chartSpec : jsval
}.

Definition userMessage (t : string) : Message :=
  {| type := user; text := VStr t; chartSpec := VUndefined |}.
Definition botText (t : jsval) : Message :=
  {| type := bot; text := t; chartSpec := VUndefined |}.
Definition botChart (spec : jsval) : Message :=
  {| type := bot_chart; text := VUndefined; chartSpec := spec |}.

(** A [File] of the browser: its name, its declared media type and the
    text [FileReader.readAsText] reads from it. *)
Record File : Type := mkFile {
  file_name : string;
  file_type : string;
  file_text : string
}.

(** A cell after [d3.autoType], and a parsed row: the own properties of
    the object d3 builds for a record, in the order JavaScript enumerates
    them (names that are array indices first, in ascending order, then the
    other names in the order they were created). *)
Inductive Cell : Type :=
| CellNull
| CellBool (b : bool)
| CellNumber (q : Q)
| CellNaN
| CellDate (iso : string)
| CellString (s : string).

Definition Row : Type := list (string * Cell).

(** ** State, requests, callbacks, commands *)

(** The [useState] variables of [App]. *)
Record App : Type := mkApp {
  message : string;
  response : list Message;
  file : option File;
  dragActive : bool;
  csvData : option (list Row);
  showPreview : bool
}.

Inductive Body : Type :=
| JsonBody (j : json)                  (* JSON.stringify(j) *)
| FormBody (parts : list (string * File)).

Record Request : Type := mkRequest {
  req_url : string;
  req_method : string;
  req_body : Body;
  req_headers : list (string * string)
}.

(** The closures left with the browser, with the variables they captured. *)
Inductive Task : Type :=
| QueryThen (response : list Message) (newMessage : Message)
    (* .then(response => response.json()).then(data => ...) of sendMessage *)
| UploadCatch (response : list Message)
    (* .then(response => response.json()).catch(() => ...) of sendFile *)
| ReaderOnload (file : File).
    (* reader.onload of parseCSV, reader.readAsText(file) *)

Inductive Cmd : Type :=
| SetMessage (v : string)
| SetResponse (v : list Message)
| SetFile (v : option File)
| SetDragActive (v : bool)
| SetCsvData (v : option (list Row))
| SetShowPreview (v : bool)
| Fetch (req : Request) (k : Task)
| ReadAsText (f : File) (k : Task)
| PreventDefault
| StopPropagation
| ClickFileInput.

(** ** The handler monad: commands issued so far, and how the call ended *)

Record M (A : Type) : Type := mkM {
  issued : list Cmd;
  ended : outcome A
}.
Arguments mkM {A} issued ended.
Arguments issued {A} m.
Arguments ended {A} m.

#[global] Instance M_ret : MRet M := fun A a => mkM [] (Returned a).

#[global] Instance M_bind : MBind M := fun A B f m =>
  match ended m with
  | Returned a => mkM (issued m ++ issued (f a)) (ended (f a))
  | Thrown err => mkM (issued m) (Thrown err)
  end.

Definition emit (c : Cmd) : M unit := mkM [c] (Returned tt).
Definition lift {A} (o : outcome A) : M A := mkM [] o.

(** ** The CSV parser: [d3.csvParse(text, d3.autoType)]

    The component imports the parser from the d3-dsv package.  What
    follows transcribes that library ([dsv.js]: [parseRows], [parse],
    [objectConverter]; [autoType.js]) for the delimiter [","]. *)

Definition QUOTE : ascii := ascii_of_nat 34.
Definition NEWLINE : ascii := ascii_of_nat 10.
Definition RETURN : ascii := ascii_of_nat 13.
Definition DELIMITER : ascii := ascii_of_nat 44.

(** [if (text.charCodeAt(N - 1) === c) --N] *)
Definition strip_last (c : ascii) (chars : list ascii) : list ascii :=
  match last chars with
  | Some c' => if Ascii.eqb c' c then removelast chars else chars
  | None => chars
  end.

(** The characters below [N], once the trailing newline is stripped. *)
Definition unstripped (chars : list ascii) : list ascii :=
  strip_last RETURN (strip_last NEWLINE chars).

(** Where [token] stands in the text. *)
Inductive Mode : Type :=
| FieldStart     (* a token begins here *)
| InPlain        (* inside a token that did not begin with a quote *)
| InQuoted       (* inside a quoted token *)
| QuoteSeen      (* inside a quoted token, just after a quote *)
| AfterReturn.   (* a token begins here; a newline here belongs to the
                    return that ended the last row *)

(** The rows [parseRows] pushes, reading the characters below [N] from
    left to right; [field] is the token being read, unescaped, [row] the
    tokens of the row being read, and [beyond] the character at index [N],
    if there is one, which the slice of a quoted token that is never
    closed takes in. *)
Fixpoint scan (beyond : list ascii) (mode : Mode) (field : list ascii)
    (row : list string) (rest : list ascii) : list (list string) :=
  let token := string_of_list_ascii field in
  match rest with
  | [] =>
      match mode with
      | FieldStart | AfterReturn => [row ++ [""]]
      | InPlain | QuoteSeen => [row ++ [token]]
      | InQuoted => [row ++ [string_of_list_ascii (field ++ beyond)]]
      end
  | c :: rest' =>
      let plain :=
        if Ascii.eqb c NEWLINE then
          (row ++ [token]) :: scan beyond FieldStart [] [] rest'
        else if Ascii.eqb c RETURN then
          (row ++ [token]) :: scan beyond AfterReturn [] [] rest'
        else if Ascii.eqb c DELIMITER then
          scan beyond FieldStart [] (row ++ [token]) rest'
        else scan beyond InPlain (field ++ [c]) row rest' in
      match mode with
      | FieldStart =>
          if Ascii.eqb c QUOTE then scan beyond InQuoted [] row rest' else plain
      | AfterReturn =>
          if Ascii.eqb c NEWLINE then scan beyond FieldStart [] [] rest'
          else if Ascii.eqb c QUOTE then scan beyond InQuoted [] row rest'
          else plain
      | InPlain => plain
      | InQuoted =>
          if Ascii.eqb c QUOTE then scan beyond QuoteSeen field row rest'
          else scan beyond InQuoted (field ++ [c]) row rest'
      | QuoteSeen =>
          if Ascii.eqb c QUOTE then
            scan beyond InQuoted (field ++ [QUOTE]) row rest'
          else if Ascii.eqb c NEWLINE then
            (row ++ [token]) :: scan beyond FieldStart [] [] rest'
          else if Ascii.eqb c RETURN then
            (row ++ [token]) :: scan beyond AfterReturn [] [] rest'
          else scan beyond FieldStart [] (row ++ [token]) rest'
      end
  end.

(** [parseRows(text)]: no row for the empty text ([eof = N <= 0]). *)
Definition parseRows (text : string) : list (list string) :=
  let chars := list_ascii_of_string text in
  match chars with
  | [] => []
  | _ =>
      scan (take 1 (drop (length (unstripped chars)) chars))
           FieldStart [] [] (unstripped chars)
  end.

(** Is the property name an array index: a decimal numeral without sign
    or leading zero, at most 2^32 - 2?  Then its value. *)
Definition is_digit (c : ascii) : bool :=
  (48 <=? nat_of_ascii c)%nat && (nat_of_ascii c <=? 57)%nat.

Definition decimal (cs : list ascii) : N :=
  fold_left (fun acc c => (10 * acc + N.of_nat (nat_of_ascii c - 48))%N) cs 0%N.

Definition array_index (k : string) : option N :=
  match list_ascii_of_string k with
  | [] => None
  | c :: rest =>
      if forallb is_digit (c :: rest)
         && (negb (Ascii.eqb c (ascii_of_nat 48))
             || match rest with [] => true | _ => false end)
         && (decimal (c :: rest) <=? 4294967294)%N
      then Some (decimal (c :: rest))
      else None
  end.

(** Is [k] enumerated before [k'], a name already there?  Only when [k]
    is an array index and [k'] is a greater one, or not one. *)
Definition goes_before (k k' : string) : bool :=
  match array_index k, array_index k' with
  | Some n, Some n' => (n <? n')%N
  | Some _, None => true
  | None, _ => false
  end.

(** An object as the list of its own properties in enumeration order;
    [put k v o] defines property [k]: a name already there keeps its
    place and takes the new value. *)
Fixpoint put {V : Type} (k : string) (v : V) (o : list (string * V))
    : list (string * V) :=
  match o with
  | [] => [(k, v)]
  | (k', v') :: o' =>
      if String.eqb k' k then (k, v) :: o'
      else if goes_before k k' then (k, v) :: (k', v') :: o'
      else (k', v') :: put k v o'
  end.

(** [objectConverter(columns)(d)]: the object literal with, for each
    column [i], the property [columns[i]: d[i] || ""].  In an object
    literal the name [__proto__] with a string value defines nothing. *)
Definition objectConverter (columns : list string) (d : list string)
    : list (string * string) :=
  fold_left
    (fun o '(i, name) =>
       if String.eqb name "__proto__" then o else put name (nth i d "") o)
    (combine (seq 0 (length columns)) columns) [].

(** [autoType(object)]: each property takes the value inferred from its
    string ([autoTypeValue]: trimmed and empty gives null, then the
    booleans, NaN, numbers and dates, else the string as it is); no
    property is added, removed or moved. *)
Definition autoType (autoTypeValue : string -> Cell)
    (object : list (string * string)) : Row :=
  map (fun kv => (fst kv, autoTypeValue (snd kv))) object.

(** [d3.csvParse(text, d3.autoType)]: the first row gives the columns,
    each later row an object.  Building the converter throws when the
    literal names [__proto__] twice. *)
Definition d3_csvParse (autoTypeValue : string -> Cell) (text : string)
    : outcome (list Row) :=
  match parseRows text with
  | [] => Returned []
  | columns :: data =>
      if (2 <=? length (List.filter (String.eqb "__proto__") columns))%nat
      then Thrown "SyntaxError"
      else Returned (map (fun d => autoType autoTypeValue (objectConverter columns d))
                         data)
  end.

(** The parser as the component's model takes it, a function that
    returns rows; it is meant for the texts on which the library returns. *)
Definition d3_rows (autoTypeValue : string -> Cell) (text : string) : list Row :=
  match d3_csvParse autoTypeValue text with
  | Returned rows => rows
  | Thrown _ => []
  end.

(** Texts without quoting: fields free of quotes, delimiters and line
    ends, joined by the delimiter; every record but the last is followed
    by a newline. *)
Definition special (c : ascii) : bool :=
  Ascii.eqb c QUOTE || Ascii.eqb c NEWLINE || Ascii.eqb c RETURN
  || Ascii.eqb c DELIMITER.

Definition plain_field (s : string) : Prop :=
  forallb (fun c => negb (special c)) (list_ascii_of_string s) = true.

Definition plain_record (r : list string) : Prop :=
  r <> [] /\ Forall plain_field r.

Fixpoint format_record (fields : list string) : list ascii :=
  match fields with
  | [] => []
  | [s] => list_ascii_of_string s
  | s :: rest => list_ascii_of_string s ++ DELIMITER :: format_record rest
  end.

Definition format_text (init : list (list string)) (final : list string)
    : string :=
  string_of_list_ascii
    (concat (map (fun r => format_record r ++ [NEWLINE]) init)
     ++ format_record final).

(** The names of the object built for the columns, in enumeration order. *)
Definition own_keys (columns : list string) : list string :=
  map fst (objectConverter columns []).

(** A header whose names are distinct, none an array index or [__proto__]. *)
Definition plain_header (columns : list string) : Prop :=
  NoDup columns /\
  Forall (fun c => array_index c = None /\ c <> "__proto__") columns.

(** ** Sample data *)

Definition notes_txt : File :=
  {| file_name := "notes.txt"; file_type := "text/plain"; file_text := "hello" |}.

Definition newline : string := String (Ascii.ascii_of_nat 10) "".

Definition data_csv : File :=
  {| file_name := "data.csv"; file_type := "text/csv";
     file_text := "a,b" ++ newline ++ "1,2" ++ newline ++ "3,4" |}.

(** Stands in for the parser in examples: every file has these two rows. *)
Definition two_rows (_ : string) : list Row :=
  [[("a", CellNumber 1); ("b", CellNumber 2)];
   [("a", CellNumber 3); ("b", CellNumber 4)]].

(** Stands in for the parser in examples: a file of sixty rows. *)
Definition sixty_rows (_ : string) : list Row :=
  map (fun n => [("n", CellNumber (inject_Z (Z.of_nat n)))]) (seq 0 60).

Definition other_csv : File :=
  {| file_name := "other.csv"; file_type := "text/csv";
     file_text := "c" ++ newline ++ "9" |}.

(** Stands in for the parser in examples: one row holding the whole text. *)
Definition one_cell (text : string) : list Row :=
  [[("text", CellString text)]].

(** A file whose header names its columns 2 and 1, in this order. *)
Definition swapped_csv : File :=
  {| file_name := "swapped.csv"; file_type := "text/csv";
     file_text := "2,1" ++ newline ++ "x,y" |}.

(** Stands in for the value inference of [autoType] in examples: the
    empty string, the two booleans, unsigned decimal numerals; any other
    string is kept. *)
Definition sample_autoType (value : string) : Cell :=
  if String.eqb value "" then CellNull
  else if String.eqb value "true" then CellBool true
  else if String.eqb value "false" then CellBool false
  else if forallb is_digit (list_ascii_of_string value)
       then CellNumber (inject_Z (Z.of_N (decimal (list_ascii_of_string value))))
  else CellString value.

Definition text_reply : json := JObj [("response", JStr "hi there")].

Definition chart_reply : json :=
  JObj [("response", JStr "here it is");
        ("chart", JObj [("mark", JStr "bar")])].

Definition null_chart_reply : json :=
  JObj [("response", JStr "hi there"); ("chart", JNull)].

(** ** The component *)

Section Client.

(** [process.env.NODE_ENV], fixed when the bundle is built, and
    [text => d3.csvParse(text, d3.autoType)] of the d3-dsv package. *)
Context (NODE_ENV : string) (csvParse : string -> list Row).

Definition url : string :=
  if String.eqb NODE_ENV "production"
  then "https://sutulas.github.io/HAI-Assignment-2/"
  else "http://127.0.0.1:8000/".

Definition initial : App :=
  {| message := "";
     response := [botText (VStr "Upload a CSV file and then ask visualization questions")];
     file := None;
     dragActive := false;
     csvData := None;
     showPreview := false |}.

Definition queryRequest (prompt : string) : Request :=
  {| req_url := url ++ "query";
     req_method := "POST";
     req_body := JsonBody (JObj [("prompt", JStr prompt)]);
     req_headers := [("Content-Type", "application/json")] |}.

Definition uploadRequest (f : File) : Request :=
  {| req_url := url ++ "uploadfile/";
     req_method := "POST";
     req_body := FormBody [("file", f)];
     req_headers := [] |}.

Definition sendMessage (st : App) : M unit :=
  if String.eqb (message st) "" then mret tt else
  let newMessage := userMessage (message st) in
  emit (SetResponse (response st ++ [newMessage])) ;;
  emit (Fetch (queryRequest (message st)) (QueryThen (response st) newMessage)) ;;
  emit (SetMessage "").

(** The second [.then] of [sendMessage]; [response] and [newMessage] are
    the variables of the call that issued the request. *)
Definition query_then (response : list Message) (newMessage : Message)
    (data : json) : M unit :=
  r ← lift (prop data "response");
  let botResponse := botText r in
  chart ← lift (prop data "chart");
  if truthy chart then
    let botChartResponse := botChart chart in
    emit (SetResponse (response ++ [newMessage; botChartResponse; botResponse]))
  else
    emit (SetResponse (response ++ [newMessage; botResponse])).

Definition handleMessage (value : string) : M unit :=
  emit (SetMessage value).

Definition handleKeyDown (st : App) (key : string) : M unit :=
  if String.eqb key "Enter" then sendMessage st else mret tt.

Definition isCSV (file : option File) : jsval :=
  match file with
  | None => VUndefined
  | Some f => VBool (String.eqb (file_type f) "text/csv")
  end.

Definition sendFile (st : App) (uploadedFile : option File) : M unit :=
  match uploadedFile with
  | Some f => emit (Fetch (uploadRequest f) (UploadCatch (response st)))
  | None => mret tt
  end.

(** The [.catch] of [sendFile]. *)
Definition upload_catch (response : list Message) : M unit :=
  let botResponse := botText (VStr "Error processing file.") in
  emit (SetResponse (response ++ [botResponse])).

Definition parseCSV (file : option File) : M unit :=
  match file with
  | Some f => emit (ReadAsText f (ReaderOnload f))
  | None => mkM [] (Thrown "TypeError")   (* readAsText wants a Blob *)
  end.

(** [reader.onload] of [parseCSV]. *)
Definition reader_onload (text : string) : M unit :=
  let parsedData := csvParse text in
  emit (SetCsvData (Some (take 50 parsedData))).

Definition handleFileUpload (st : App) (files : list File) : M unit :=
  let uploadedFile := files !! 0%nat in
  if negb (truthy (isCSV uploadedFile)) then
    let botResponse := botText (VStr "Error: Please upload a valid CSV file.") in
    emit (SetResponse (response st ++ [botResponse]))
  else
    emit (SetFile uploadedFile) ;;
    parseCSV uploadedFile ;;
    sendFile st uploadedFile.

Definition handleDrag : M unit :=
  emit PreventDefault ;; emit StopPropagation ;; emit (SetDragActive true).

Definition handleDragLeave : M unit :=
  emit PreventDefault ;; emit StopPropagation ;; emit (SetDragActive false).

Definition handleDrop (st : App) (files : list File) : M unit :=
  emit PreventDefault ;;
  emit StopPropagation ;;
  emit (SetDragActive false) ;;
  let droppedFile := files !! 0%nat in
  if negb (truthy (isCSV droppedFile)) then
    let botResponse := botText (VStr "Error: Please upload a valid CSV file.") in
    emit (SetResponse (response st ++ [botResponse]))
  else
    emit (SetFile droppedFile) ;;
    parseCSV droppedFile ;;
    sendFile st droppedFile.

Definition handleClick : M unit := emit ClickFileInput.

Definition togglePreview (st : App) : M unit :=
  emit (SetShowPreview (negb (showPreview st))).

(** ** The page: state, callbacks not yet called, requests sent *)

Record World : Type := mkWorld {
  app : App;
  pending : list (option Task);
  requests : list Request
}.

Definition start : World :=
  {| app := initial; pending := []; requests := [] |}.

Definition set_app (w : World) (a : App) : World :=
  {| app := a; pending := pending w; requests := requests w |}.

Definition apply_cmd (w : World) (c : Cmd) : World :=
  let st := app w in
  match c with
  | SetMessage v =>
      set_app w (mkApp v (response st) (file st) (dragActive st) (csvData st) (showPreview st))
  | SetResponse v =>
      set_app w (mkApp (message st) v (file st) (dragActive st) (csvData st) (showPreview st))
  | SetFile v =>
      set_app w (mkApp (message st) (response st) v (dragActive st) (csvData st) (showPreview st))
  | SetDragActive v =>
      set_app w (mkApp (message st) (response st) (file st) v (csvData st) (showPreview st))
  | SetCsvData v =>
      set_app w (mkApp (message st) (response st) (file st) (dragActive st) v (showPreview st))
  | SetShowPreview v =>
      set_app w (mkApp (message st) (response st) (file st) (dragActive st) (csvData st) v)
  | Fetch req k =>
      {| app := st; pending := pending w ++ [Some k]; requests := requests w ++ [req] |}
  | ReadAsText _ k =>
      {| app := st; pending := pending w ++ [Some k]; requests := requests w |}
  | PreventDefault | StopPropagation | ClickFileInput => w
  end.

(** The updates a call asked for are applied in order once it has ended,
    whether it returned or threw. *)
Definition dispatch (w : World) (h : M unit) : World :=
  foldl apply_cmd w (issued h).

(** How the browser finishes a pending operation. *)
Inductive Completion : Type :=
| Rejected                      (* fetch: the promise rejects *)
| Answered (body : option json) (* fetch: a response; its body decoded, or not JSON *)
| Loaded                        (* FileReader: load *)
| ReadFailed.                   (* FileReader: error *)

Definition callback (k : Task) (c : Completion) : M unit :=
  match k, c with
  | QueryThen response newMessage, Answered (Some data) =>
      query_then response newMessage data
  | UploadCatch response, Rejected => upload_catch response
  | UploadCatch response, Answered None => upload_catch response
  | ReaderOnload f, Loaded => reader_onload (file_text f)
  | _, _ => mret tt
  end.

(** A [fetch] promise is rejected or answered; a reader loads or fails. *)
Definition fits (k : Task) (c : Completion) : bool :=
  match k, c with
  | (QueryThen _ _ | UploadCatch _), (Rejected | Answered _) => true
  | ReaderOnload _, (Loaded | ReadFailed) => true
  | _, _ => false
  end.

Inductive Event : Type :=
| Input (value : string)
| KeyDown (key : string)
| ClickSend
| Change (files : list File)
| DragEnter
| DragOver
| DragLeave
| Drop (files : list File)
| ClickArea
| ClickPreview
| Settle (i : nat) (c : Completion).

(** The handler an event runs, with the state of the latest render. *)
Definition handler (st : App) (ev : Event) : M unit :=
  match ev with
  | Input value => handleMessage value
  | KeyDown key => handleKeyDown st key
  | ClickSend => sendMessage st
  | Change files => handleFileUpload st files
  | DragEnter | DragOver => handleDrag
  | DragLeave => handleDragLeave
  | Drop files => handleDrop st files
  | ClickArea => handleClick
  | ClickPreview =>
      match file st with Some _ => togglePreview st | None => mret tt end
  | Settle _ _ => mret tt
  end.

Definition step (w : World) (ev : Event) : World :=
  match ev with
  | Settle i c =>
      match pending w !! i with
      | Some (Some k) =>
          if fits k c then
            dispatch {| app := app w; pending := <[i := None]> (pending w);
                        requests := requests w |} (callback k c)
          else w
      | _ => w
      end
  | _ => dispatch w (handler (app w) ev)
  end.

Definition run (w : World) (evs : list Event) : World := foldl step w evs.

(** Does the event call back the pending operation number [k]? *)
Definition settles (k : nat) (ev : Event) : bool :=
  match ev with
  | Settle i _ => Nat.eqb i k
  | _ => false
  end.

Definition is_settle (ev : Event) : bool :=
  match ev with
  | Settle _ _ => true
  | _ => false
  end.

(** [data.key] where it does not throw. *)
Definition field (data : json) (key : string) : jsval :=
  match prop data key with
  | Returned v => v
  | Thrown _ => VUndefined
  end.

(** The bot messages a decoded body leads to. *)
Definition replies (data : json) : list Message :=
  if truthy (field data "chart")
  then [botChart (field data "chart"); botText (field data "response")]
  else [botText (field data "response")].

(** A query or upload that does not come back with a decoded body. *)
Definition failed (c : Completion) : bool :=
  match c with
  | Rejected | Answered None => true
  | _ => false
  end.

Definition rejectMessage : Message :=
  botText (VStr "Error: Please upload a valid CSV file.").

Definition uploadErrorMessage : Message :=
  botText (VStr "Error processing file.").

(** The state with one message more at the end of the conversation. *)
Definition with_message (st : App) (m : Message) : App :=
  mkApp (message st) (response st ++ [m]) (file st) (dragActive st)
        (csvData st) (showPreview st).

Definition drag_cleared (st : App) : App :=
  mkApp (message st) (response st) (file st) false (csvData st) (showPreview st).

(** ** Sample sessions *)

(** A drag is over the drop area. *)
Definition hovering : World := run start [DragEnter; DragOver].

(** One question has been sent and its answer is awaited. *)
Definition asked : World := run start [Input "plot it"; ClickSend].

(** Two questions sent one after the other, no answer yet. *)
Definition two_sends : list Event :=
  [Input "a"; ClickSend; Input "b"; ClickSend].

(** ** The view *)

Inductive Avatar : Type := userAvatar | botAvatar.

(** The content of a message bubble: the chart widget with its [spec],
    or a [span] with the text. *)
Inductive Bubble : Type :=
| VegaLite (spec : jsval)
| Span (text : jsval).

Definition avatar (msg : Message) : Avatar :=
  match type msg with
  | user => userAvatar
  | _ => botAvatar
  end.

Definition bubble (msg : Message) : Bubble :=
  match type msg with
  | bot_chart => VegaLite (chartSpec msg)
  | _ => Span (text msg)
  end.

(** The preview button: rendered when a file is held, with its label. *)
Definition previewButton (st : App) : option string :=
  match file st with
  | Some _ => Some (if showPreview st then "Hide Preview" else "Preview CSV")
  | None => None
  end.

(** Is the preview table rendered?  An array, empty or not, is truthy. *)
Definition previewShown (st : App) : bool :=
  showPreview st && match csvData st with Some _ => true | None => false end.

(** ** What is expected of every state the page can be in *)

Definition well_formed (m : Message) : Prop :=
  match type m with
  | user =>
      exists t, t <> "" /\
        m = {| type := user; text := VJson (JStr t); chartSpec := VUndefined |}
  | bot =>
      exists t, m = {| type := bot; text := t; chartSpec := VUndefined |}
  | bot_chart =>
      exists spec, truthy spec = true /\
        m = {| type := bot_chart; text := VUndefined; chartSpec := spec |}
  end.

Definition good_conversation (l : list Message) : Prop :=
  response initial `prefix_of` l /\ Forall well_formed l.

Definition good_request (r : Request) : Prop :=
  (exists t, t <> "" /\ r = queryRequest t) \/
  (exists f, file_type f = "text/csv" /\ r = uploadRequest f).

Definition good_task (t : option Task) : Prop :=
  match t with
  | Some (QueryThen snapshot newMessage) =>
      good_conversation snapshot /\ well_formed newMessage
  | Some (UploadCatch snapshot) => good_conversation snapshot
  | Some (ReaderOnload f) => file_type f = "text/csv"
  | None => True
  end.

Definition no_reader (t : option Task) : Prop :=
  match t with
  | Some (ReaderOnload _) => False
  | _ => True
  end.

Record Inv (w : World) : Prop := mkInv {
  inv_conversation : good_conversation (response (app w));
  inv_tasks : Forall good_task (pending w);
  inv_requests : Forall good_request (requests w);
  inv_file :
    match file (app w) with
    | Some f => file_type f = "text/csv"
    | None => showPreview (app w) = false /\ csvData (app w) = None /\
              Forall no_reader (pending w)
    end;
  inv_preview :
    match csvData (app w) with
    | Some rows => length rows <= 50
    | None => True
    end
}.

(** ** The transitions, case by case *)

Definition sends (ev : Event) : Prop := ev = ClickSend \/ ev = KeyDown "Enter".

(** The page once callback [i] has been taken off the table. *)
Definition taken (w : World) (i : nat) : World :=
  {| app := app w; pending := <[i := None]> (pending w); requests := requests w |}.

Inductive Fires (w : World) : Event -> World -> Prop :=
| Fires_input value :
    Fires w (Input value)
      (set_app w (mkApp value (response (app w)) (file (app w))
                        (dragActive (app w)) (csvData (app w)) (showPreview (app w))))
| Fires_other_key key :
    key <> "Enter" -> Fires w (KeyDown key) w
| Fires_send_nothing ev :
    sends ev -> message (app w) = "" -> Fires w ev w
| Fires_send ev :
    sends ev -> message (app w) <> "" ->
    Fires w ev
      {| app := mkApp "" (response (app w) ++ [userMessage (message (app w))])
                      (file (app w)) (dragActive (app w)) (csvData (app w))
                      (showPreview (app w));
         pending := pending w ++
           [Some (QueryThen (response (app w)) (userMessage (message (app w))))];
         requests := requests w ++ [queryRequest (message (app w))] |}
| Fires_change_rejected files :
    truthy (isCSV (files !! 0%nat)) = false ->
    Fires w (Change files) (set_app w (with_message (app w) rejectMessage))
| Fires_drop_rejected files :
    truthy (isCSV (files !! 0%nat)) = false ->
    Fires w (Drop files)
      (set_app w (with_message (drag_cleared (app w)) rejectMessage))
| Fires_change_accepted files f :
    files !! 0%nat = Some f -> file_type f = "text/csv" ->
    Fires w (Change files)
      {| app := mkApp (message (app w)) (response (app w)) (Some f)
                      (dragActive (app w)) (csvData (app w)) (showPreview (app w));
         pending := pending w ++
           [Some (ReaderOnload f); Some (UploadCatch (response (app w)))];
         requests := requests w ++ [uploadRequest f] |}
| Fires_drop_accepted files f :
    files !! 0%nat = Some f -> file_type f = "text/csv" ->
    Fires w (Drop files)
      {| app := mkApp (message (app w)) (response (app w)) (Some f)
                      false (csvData (app w)) (showPreview (app w));
         pending := pending w ++
           [Some (ReaderOnload f); Some (UploadCatch (response (app w)))];
         requests := requests w ++ [uploadRequest f] |}
| Fires_drag ev :
    ev = DragEnter \/ ev = DragOver ->
    Fires w ev
      (set_app w (mkApp (message (app w)) (response (app w)) (file (app w))
                        true (csvData (app w)) (showPreview (app w))))
| Fires_drag_leave :
    Fires w DragLeave (set_app w (drag_cleared (app w)))
| Fires_click_area :
    Fires w ClickArea w
| Fires_no_button :
    file (app w) = None -> Fires w ClickPreview w
| Fires_toggle f :
    file (app w) = Some f ->
    Fires w ClickPreview
      (set_app w (mkApp (message (app w)) (response (app w)) (file (app w))
                        (dragActive (app w)) (csvData (app w))
                        (negb (showPreview (app w)))))
| Fires_nothing_pending i c :
    (forall k, pending w !! i = Some (Some k) -> fits k c = false) ->
    Fires w (Settle i c) w
| Fires_reply i snapshot newMessage data :
    pending w !! i = Some (Some (QueryThen snapshot newMessage)) ->
    data <> JNull ->
    Fires w (Settle i (Answered (Some data)))
      (set_app (taken w i)
         (mkApp (message (app w)) (snapshot ++ newMessage :: replies data)
                (file (app w)) (dragActive (app w)) (csvData (app w))
                (showPreview (app w))))
| Fires_reply_null i snapshot newMessage :
    pending w !! i = Some (Some (QueryThen snapshot newMessage)) ->
    Fires w (Settle i (Answered (Some JNull))) (taken w i)
| Fires_query_failed i snapshot newMessage c :
    pending w !! i = Some (Some (QueryThen snapshot newMessage)) ->
    failed c = true ->
    Fires w (Settle i c) (taken w i)
| Fires_upload_failed i snapshot c :
    pending w !! i = Some (Some (UploadCatch snapshot)) ->
    failed c = true ->
    Fires w (Settle i c)
      (set_app (taken w i)
         (mkApp (message (app w)) (snapshot ++ [uploadErrorMessage])
                (file (app w)) (dragActive (app w)) (csvData (app w))
                (showPreview (app w))))
| Fires_upload_answered i snapshot data :
    pending w !! i = Some (Some (UploadCatch snapshot)) ->
    Fires w (Settle i (Answered (Some data))) (taken w i)
| Fires_loaded i f :
    pending w !! i = Some (Some (ReaderOnload f)) ->
    Fires w (Settle i Loaded)
      (set_app (taken w i)
         (mkApp (message (app w)) (response (app w)) (file (app w))
                (dragActive (app w))
                (Some (take 50 (csvParse (file_text f))))
                (showPreview (app w))))
| Fires_read_failed i f :
    pending w !! i = Some (Some (ReaderOnload f)) ->
    Fires w (Settle i ReadFailed) (taken w i).

(** * Properties *)

(** ** Commands and the table of pending callbacks *)

Lemma apply_cmd_pending (w : World) (c : Cmd) :
  exists more, pending (apply_cmd w c) = pending w ++ more.
Proof.
  destruct c; simpl; first [ by eexists | by exists []; rewrite app_nil_r ].
Qed.

Lemma foldl_apply_cmd_pending (cs : list Cmd) (w : World) :
  exists more, pending (foldl apply_cmd w cs) = pending w ++ more.
Proof.
  revert w. induction cs as [|c cs IH]; intros w; simpl.
  - exists []. by rewrite app_nil_r.
  - destruct (IH (apply_cmd w c)) as [m2 E2].
    destruct (apply_cmd_pending w c) as [m1 E1].
    exists (m1 ++ m2). by rewrite E2, E1, <- app_assoc.
Qed.

(** A call only adds entries to the table. *)
Lemma dispatch_keeps (w : World) (h : M unit) (k : nat) (x : option Task) :
  pending w !! k = Some x -> pending (dispatch w h) !! k = Some x.
Proof.
  intros H. unfold dispatch.
  destruct (foldl_apply_cmd_pending (issued h) w) as [more ->].
  by apply lookup_app_l_Some.
Qed.

(** An event that does not settle entry [k] leaves it as it is. *)
Lemma step_keeps (w : World) (ev : Event) (k : nat) (x : option Task) :
  settles k ev = false ->
  pending w !! k = Some x -> pending (step w ev) !! k = Some x.
Proof.
  intros Hne H.
  destruct ev; try (by apply dispatch_keeps).
  simpl in *. apply Nat.eqb_neq in Hne.
  destruct (pending w !! i) as [[t|]|] eqn:E; try done.
  destruct (fits t c); try done.
  apply dispatch_keeps. simpl. by rewrite list_lookup_insert_ne.
Qed.

Lemma run_keeps (evs : list Event) (w : World) (k : nat) (x : option Task) :
  Forall (fun ev => settles k ev = false) evs ->
  pending w !! k = Some x -> pending (run w evs) !! k = Some x.
Proof.
  revert w. induction evs as [|ev evs IH]; intros w Hall H; simpl; [done|].
  apply Forall_cons in Hall as [Hev Hrest].
  apply IH; [done|]. by apply step_keeps.
Qed.

Lemma run_app (w : World) (evs1 evs2 : list Event) :
  run w (evs1 ++ evs2) = run (run w evs1) evs2.
Proof. unfold run. apply foldl_app. Qed.

Lemma run_one (w : World) (ev : Event) : run w [ev] = step w ev.
Proof. reflexivity. Qed.

(** ** Sending a message *)

Lemma sendMessage_empty (st : App) :
  message st = "" -> sendMessage st = mret tt.
Proof. intros E. unfold sendMessage. by rewrite E. Qed.

Lemma sendMessage_nonempty (st : App) :
  message st <> "" ->
  sendMessage st =
    mkM [SetResponse (response st ++ [userMessage (message st)]);
         Fetch (queryRequest (message st))
               (QueryThen (response st) (userMessage (message st)));
         SetMessage ""] (Returned tt).
Proof.
  intros E. unfold sendMessage.
  destruct (String.eqb_spec (message st) ""); [done|reflexivity].
Qed.

Lemma step_send (w : World) :
  message (app w) <> "" ->
  step w ClickSend =
    {| app := mkApp "" (response (app w) ++ [userMessage (message (app w))])
                    (file (app w)) (dragActive (app w)) (csvData (app w))
                    (showPreview (app w));
       pending := pending w ++
         [Some (QueryThen (response (app w)) (userMessage (message (app w))))];
       requests := requests w ++ [queryRequest (message (app w))] |}.
Proof.
  intros E. unfold step, handler, dispatch.
  by rewrite sendMessage_nonempty.
Qed.

(** C2. Sending with empty input text changes nothing and sends nothing;
    sending with any other text, blank or not, adds one user message with
    that text at the end of the conversation and sends one request to the
    query endpoint whose JSON body is the object with the single property
    [prompt] holding that text.  The Send button and the Enter key both
    call [sendMessage]. *)
Theorem send_empty_or_one_query (w : World) (ev : Event) :
  ev = ClickSend \/ ev = KeyDown "Enter" ->
  (message (app w) = "" -> step w ev = w) /\
  (message (app w) <> "" ->
     ended (handler (app w) ev) = Returned tt /\
     response (app (step w ev)) =
       response (app w) ++
         [{| type := user; text := VJson (JStr (message (app w)));
             chartSpec := VUndefined |}] /\
     exists req,
       requests (step w ev) = requests w ++ [req] /\
       req_url req = (url ++ "query")%string /\
       req_method req = "POST" /\
       req_body req = JsonBody (JObj [("prompt", JStr (message (app w)))])).
Proof.
  intros Hev.
  assert (Hstep : step w ev = step w ClickSend) by (by destruct Hev; subst).
  assert (Hh : handler (app w) ev = sendMessage (app w)) by (by destruct Hev; subst).
  rewrite Hstep, Hh. split.
  - intros E. unfold step, handler, dispatch.
    rewrite (sendMessage_empty _ E). by destruct w.
  - intros E. rewrite (step_send _ E), (sendMessage_nonempty _ E). simpl.
    repeat split. by eexists.
Qed.

Lemma send_task (w : World) :
  message (app w) <> "" ->
  pending (step w ClickSend) !! length (pending w) =
    Some (Some (QueryThen (response (app w)) (userMessage (message (app w))))).
Proof.
  intros E. rewrite (step_send _ E). simpl.
  rewrite lookup_app_r by lia. by rewrite Nat.sub_diag.
Qed.

(** ** Callbacks *)

Lemma query_then_replies (snapshot : list Message) (newMessage : Message)
    (data : json) :
  data <> JNull ->
  query_then snapshot newMessage data =
    mkM [SetResponse (snapshot ++ newMessage :: replies data)] (Returned tt).
Proof.
  intros Hnn. unfold query_then, replies, field.
  destruct data; try done; cbn;
    try (destruct (truthy (assoc "chart" fields)); reflexivity); reflexivity.
Qed.

Lemma query_then_null (snapshot : list Message) (newMessage : Message) :
  query_then snapshot newMessage JNull = mkM [] (Thrown "TypeError").
Proof. reflexivity. Qed.

Lemma settle_query (w : World) (i : nat) (snapshot : list Message)
    (newMessage : Message) (data : json) :
  pending w !! i = Some (Some (QueryThen snapshot newMessage)) ->
  data <> JNull ->
  step w (Settle i (Answered (Some data))) =
    {| app := mkApp (message (app w)) (snapshot ++ newMessage :: replies data)
                    (file (app w)) (dragActive (app w)) (csvData (app w))
                    (showPreview (app w));
       pending := <[i := None]> (pending w);
       requests := requests w |}.
Proof.
  intros H Hnn. unfold step. rewrite H. simpl.
  by rewrite query_then_replies.
Qed.

(** No callback touches the input text. *)
Lemma settle_message (w : World) (i : nat) (c : Completion) :
  message (app (step w (Settle i c))) = message (app w).
Proof.
  unfold step.
  destruct (pending w !! i) as [[k|]|]; try done.
  destruct (fits k c); try done.
  destruct k as [snapshot nm|snapshot|f], c as [|[data|]| |]; try done.
  unfold callback. destruct data; try done; by rewrite query_then_replies.
Qed.

Lemma settles_keep_message (evs : list Event) (w : World) :
  Forall (fun e => is_settle e = true) evs ->
  message (app (run w evs)) = message (app w).
Proof.
  revert w. induction evs as [|e evs IH]; intros w Hall; simpl; [done|].
  apply Forall_cons in Hall as [He Hrest].
  rewrite (IH _ Hrest).
  destruct e; try discriminate He. apply settle_message.
Qed.

(** C9. Right after [sendMessage] has dispatched a non-empty message the
    input text is empty, and it stays empty whatever the network does
    later: no completion of a pending request or read, successful or
    not, writes the input text. *)
Theorem input_cleared_at_dispatch (w : World) (ev : Event) (evs : list Event) :
  ev = ClickSend \/ ev = KeyDown "Enter" ->
  message (app w) <> "" ->
  message (app (step w ev)) = "" /\
  (Forall (fun e => is_settle e = true) evs ->
   message (app (run (step w ev) evs)) = "").
Proof.
  intros Hev E.
  assert (Hstep : step w ev = step w ClickSend) by (by destruct Hev; subst).
  rewrite Hstep.
  assert (H0 : message (app (step w ClickSend)) = "") by (by rewrite step_send).
  split; [done|].
  intros Hall. by rewrite settles_keep_message.
Qed.

(** C8. When the query request fails, by a rejected promise or by a body
    that is not JSON, the callback of [sendMessage] is not run: whatever
    happened since the message was sent, the failure leaves every state
    variable as it was (the user message added at send time included),
    sends nothing and adds no error message. *)
Theorem query_failure_dropped (w : World) (evs : list Event) (c : Completion) :
  message (app w) <> "" ->
  Forall (fun e => settles (length (pending w)) e = false) evs ->
  failed c = true ->
  let w1 := run (step w ClickSend) evs in
  let w2 := step w1 (Settle (length (pending w)) c) in
  callback (QueryThen (response (app w)) (userMessage (message (app w)))) c
    = mret tt /\
  app w2 = app w1 /\
  requests w2 = requests w1 /\
  (evs = [] -> app w2 = mkApp "" (response (app w) ++ [userMessage (message (app w))])
                           (file (app w)) (dragActive (app w)) (csvData (app w))
                           (showPreview (app w))).
Proof.
  intros E Hall Hc w1 w2.
  assert (Hk : pending w1 !! length (pending w) =
               Some (Some (QueryThen (response (app w)) (userMessage (message (app w)))))).
  { apply run_keeps; [done|]. by apply send_task. }
  assert (Hcb : callback (QueryThen (response (app w)) (userMessage (message (app w)))) c
                = mret tt).
  { destruct c as [|[data|]| |]; done. }
  assert (Happ : app w2 = app w1 /\ requests w2 = requests w1).
  { subst w2. unfold step. rewrite Hk.
    destruct (fits _ c); [|done]. by rewrite Hcb. }
  destruct Happ as [Ha Hr]. repeat split; try done.
  intros ->. rewrite Ha. subst w1. unfold run. cbn [foldl]. by rewrite step_send.
Qed.

Lemma fold_in (w : World) (evs : list Event) (data : json) :
  message (app w) <> "" ->
  Forall (fun e => settles (length (pending w)) e = false) evs ->
  data <> JNull ->
  response (app (run (step w ClickSend)
                     (evs ++ [Settle (length (pending w)) (Answered (Some data))])))
  = response (app w) ++ userMessage (message (app w)) :: replies data.
Proof.
  intros E Hall Hnn. rewrite run_app, run_one.
  erewrite settle_query; [reflexivity| |done].
  apply run_keeps; [done|]. by apply send_task.
Qed.

(** C4. The conversation after a query response is the conversation the
    [sendMessage] call saw (before it added the user message), then that
    user message, then the bot message or messages of the reply.  What
    the conversation is when the response arrives plays no part: any
    events may have happened in between, a whole later exchange included,
    and the result is the one that comes out when nothing happened in
    between, so the messages they added are not in it. *)
Theorem response_folds_into_send_snapshot (w : World) (evs : list Event)
    (data : json) :
  message (app w) <> "" ->
  Forall (fun e => settles (length (pending w)) e = false) evs ->
  data <> JNull ->
  let arrival := Settle (length (pending w)) (Answered (Some data)) in
  response (app (run (step w ClickSend) (evs ++ [arrival])))
  = response (app w) ++ userMessage (message (app w)) :: replies data /\
  response (app (run (step w ClickSend) (evs ++ [arrival])))
  = response (app (run (step w ClickSend) [arrival])).
Proof.
  intros E Hall Hnn arrival. subst arrival.
  rewrite (fold_in w evs data E Hall Hnn).
  split; [done|].
  symmetry. by apply (fold_in w [] data).
Qed.

Lemma no_field_undefined (data : json) (key : string) :
  has_field data key = false -> field data key = VUndefined.
Proof.
  unfold field, prop, has_field.
  destruct data as [| | | | |fields]; try done.
  induction fields as [|[k v] rest IH]; simpl; [done|].
  destruct (String.eqb k key); [done|]. exact IH.
Qed.


(** ** Files *)

Lemma isCSV_other (f : File) :
  file_type f <> "text/csv" -> truthy (isCSV (Some f)) = false.
Proof.
  intros Hne. simpl. by destruct (String.eqb_spec (file_type f) "text/csv").
Qed.

Lemma isCSV_csv (f : File) :
  file_type f = "text/csv" -> truthy (isCSV (Some f)) = true.
Proof. intros E. simpl. by rewrite E. Qed.

Lemma upload_rejected (st : App) (files : list File) :
  truthy (isCSV (files !! 0%nat)) = false ->
  handleFileUpload st files =
    mkM [SetResponse (response st ++ [rejectMessage])] (Returned tt).
Proof. intros H. unfold handleFileUpload. by rewrite H. Qed.

Lemma drop_rejected (st : App) (files : list File) :
  truthy (isCSV (files !! 0%nat)) = false ->
  handleDrop st files =
    mkM [PreventDefault; StopPropagation; SetDragActive false;
         SetResponse (response st ++ [rejectMessage])] (Returned tt).
Proof. intros H. unfold handleDrop. by rewrite H. Qed.

Lemma step_rejected (w : World) (files : list File) :
  truthy (isCSV (files !! 0%nat)) = false ->
  step w (Change files) = set_app w (with_message (app w) rejectMessage) /\
  step w (Drop files) =
    set_app w (with_message (drag_cleared (app w)) rejectMessage).
Proof.
  intros H. unfold step, handler, dispatch.
  by rewrite (upload_rejected _ _ H), (drop_rejected _ _ H).
Qed.



Lemma accepted_commands (st : App) (files : list File) (f : File) :
  files !! 0%nat = Some f ->
  file_type f = "text/csv" ->
  handleFileUpload st files =
    mkM [SetFile (Some f); ReadAsText f (ReaderOnload f);
         Fetch (uploadRequest f) (UploadCatch (response st))] (Returned tt) /\
  handleDrop st files =
    mkM [PreventDefault; StopPropagation; SetDragActive false;
         SetFile (Some f); ReadAsText f (ReaderOnload f);
         Fetch (uploadRequest f) (UploadCatch (response st))] (Returned tt).
Proof.
  intros Hf E. unfold handleFileUpload, handleDrop.
  rewrite Hf, (isCSV_csv _ E). by split.
Qed.

(** An accepted file leaves two callbacks behind: the reader's, then the
    upload's, which holds the conversation of this moment. *)
Lemma accepted_tasks (w : World) (files : list File) (f : File) (ev : Event) :
  files !! 0%nat = Some f ->
  file_type f = "text/csv" ->
  ev = Change files \/ ev = Drop files ->
  pending (step w ev) =
    pending w ++ [Some (ReaderOnload f); Some (UploadCatch (response (app w)))] /\
  response (app (step w ev)) = response (app w) /\
  requests (step w ev) = requests w ++ [uploadRequest f].
Proof.
  intros Hf E Hev.
  destruct (accepted_commands (app w) files f Hf E) as [Hc Hd].
  destruct Hev as [-> | ->]; unfold step, handler, dispatch.
  - rewrite Hc. simpl. by rewrite <- app_assoc.
  - rewrite Hd. simpl. by rewrite <- app_assoc.
Qed.

Lemma settle_reader (w : World) (i : nat) (f : File) :
  pending w !! i = Some (Some (ReaderOnload f)) ->
  csvData (app (step w (Settle i Loaded))) =
    Some (take 50 (csvParse (file_text f))).
Proof. intros H. unfold step. by rewrite H. Qed.

(** X26. Whatever the parser is: once the text of an accepted file has
    been read, and whatever happened in between, the stored preview is
    the first fifty rows the parser returned for that text, each row
    as the parser built it: all the rows when there are at most fifty;
    with more, exactly fifty, the row at each position below fifty being
    the parser's row at that position. *)
Theorem preview_is_first_fifty_rows (w : World) (files : list File) (f : File)
    (ev : Event) (evs : list Event) :
  files !! 0%nat = Some f ->
  file_type f = "text/csv" ->
  ev = Change files \/ ev = Drop files ->
  Forall (fun e => settles (length (pending w)) e = false) evs ->
  let rows := csvParse (file_text f) in
  let w' := run (step w ev) (evs ++ [Settle (length (pending w)) Loaded]) in
  exists preview : list Row,
    csvData (app w') = Some preview /\
    (length rows <= 50 -> preview = rows /\ length preview = length rows) /\
    (50 < length rows ->
       length preview = 50 /\ preview = take 50 rows /\
       forall j, j < 50 -> preview !! j = rows !! j).
Proof.
  intros Hf E Hev Hall rows w'. exists (take 50 rows). split; [|split].
  - subst w'. rewrite run_app, run_one. apply settle_reader.
    apply run_keeps; [done|].
    destruct (accepted_tasks w files f ev Hf E Hev) as (-> & _ & _).
    rewrite lookup_app_r by lia. by rewrite Nat.sub_diag.
  - intros Hle. by rewrite take_ge.
  - intros Hlt. split; [|split]; [|done|].
    + rewrite length_take. lia.
    + intros j Hj. by apply lookup_take_lt.
Qed.

Lemma settle_upload_failed (w : World) (i : nat) (snapshot : list Message)
    (c : Completion) :
  pending w !! i = Some (Some (UploadCatch snapshot)) ->
  failed c = true ->
  app (step w (Settle i c)) =
    mkApp (message (app w)) (snapshot ++ [uploadErrorMessage]) (file (app w))
          (dragActive (app w)) (csvData (app w)) (showPreview (app w)).
Proof.
  intros H Hc. unfold step. rewrite H.
  destruct c as [|[data|]| |]; done.
Qed.

Lemma settle_upload_preview (w : World) (i : nat) (snapshot : list Message)
    (c : Completion) :
  pending w !! i = Some (Some (UploadCatch snapshot)) ->
  csvData (app (step w (Settle i c))) = csvData (app w).
Proof.
  intros H. unfold step. rewrite H.
  destruct c as [|[data|]| |]; done.
Qed.


(** ** What a user action does to the conversation *)

(** X23. A handler called by the user runs with the conversation as it is, so
    what it sets extends it; only the callbacks, which hold an older
    conversation, can set a shorter or different one. *)
Lemma user_event_extends (w : World) (ev : Event) :
  is_settle ev = false ->
  response (app w) `prefix_of` response (app (step w ev)).
Proof.
  intros Hev.
  assert (Hrej : forall files, truthy (isCSV (files !! 0%nat)) = false ->
            response (app w) `prefix_of` response (app (step w (Change files))) /\
            response (app w) `prefix_of` response (app (step w (Drop files)))).
  { intros files H. destruct (step_rejected w files H) as [-> ->].
    split; by eexists. }
  assert (Hacc : forall files, truthy (isCSV (files !! 0%nat)) = true ->
            response (app (step w (Change files))) = response (app w) /\
            response (app (step w (Drop files))) = response (app w)).
  { intros files H. destruct (files !! 0%nat) as [f|] eqn:Hf; [|done].
    assert (E : file_type f = "text/csv").
    { simpl in H. by destruct (String.eqb_spec (file_type f) "text/csv"). }
    split; apply (accepted_tasks w files f); auto. }
  destruct ev; try discriminate Hev; try (by exists []; rewrite app_nil_r).
  - (* Enter, or another key *)
    unfold step, handler, handleKeyDown.
    destruct (String.eqb key "Enter"); [|by exists []; rewrite app_nil_r].
    destruct (String.eqb_spec (message (app w)) "") as [E|E].
    + rewrite (sendMessage_empty _ E). by exists []; rewrite app_nil_r.
    + fold (handler (app w) ClickSend). fold (step w ClickSend).
      rewrite (step_send _ E). by eexists.
  - destruct (String.eqb_spec (message (app w)) "") as [E|E].
    + unfold step, handler. rewrite (sendMessage_empty _ E).
      by exists []; rewrite app_nil_r.
    + rewrite (step_send _ E). by eexists.
  - destruct (truthy (isCSV (files !! 0%nat))) eqn:H.
    + destruct (Hacc files H) as [-> _]. by exists []; rewrite app_nil_r.
    + by apply Hrej.
  - destruct (truthy (isCSV (files !! 0%nat))) eqn:H.
    + destruct (Hacc files H) as [_ ->]. by exists []; rewrite app_nil_r.
    + by apply Hrej.
  - unfold step, handler. destruct (file (app w)); by exists []; rewrite app_nil_r.
Qed.

(** ** Every state the page can reach *)

Lemma run_invariant (P : World -> Prop) :
  (forall w ev, P w -> P (step w ev)) ->
  forall evs w, P w -> P (run w evs).
Proof.
  intros Hstep evs. induction evs as [|ev evs IH]; intros w Hw; simpl; [done|].
  apply IH. by apply Hstep.
Qed.

Lemma step_accepted (w : World) (files : list File) (f : File) :
  files !! 0%nat = Some f ->
  file_type f = "text/csv" ->
  step w (Change files) =
    {| app := mkApp (message (app w)) (response (app w)) (Some f)
                    (dragActive (app w)) (csvData (app w)) (showPreview (app w));
       pending := pending w ++
         [Some (ReaderOnload f); Some (UploadCatch (response (app w)))];
       requests := requests w ++ [uploadRequest f] |} /\
  step w (Drop files) =
    {| app := mkApp (message (app w)) (response (app w)) (Some f)
                    false (csvData (app w)) (showPreview (app w));
       pending := pending w ++
         [Some (ReaderOnload f); Some (UploadCatch (response (app w)))];
       requests := requests w ++ [uploadRequest f] |}.
Proof.
  intros Hf E.
  destruct (accepted_commands (app w) files f Hf E) as [Hc Hd].
  unfold step, handler, dispatch. rewrite Hc, Hd. simpl.
  by rewrite <- app_assoc.
Qed.

Lemma first_file_cases (files : list File) :
  truthy (isCSV (files !! 0%nat)) = false \/
  exists f, files !! 0%nat = Some f /\ file_type f = "text/csv".
Proof.
  destruct (files !! 0%nat) as [f|]; [|by left].
  destruct (String.eqb_spec (file_type f) "text/csv") as [E|E].
  - right. by exists f.
  - left. by apply isCSV_other.
Qed.

Lemma well_formed_replies (data : json) : Forall well_formed (replies data).
Proof.
  unfold replies. destruct (truthy (field data "chart")) eqn:Ht.
  - repeat constructor; [by exists (field data "chart") | by eexists].
  - repeat constructor. by eexists.
Qed.

Lemma good_conversation_app (l more : list Message) :
  good_conversation l -> Forall well_formed more -> good_conversation (l ++ more).
Proof.
  intros [Hp Hw] Hm. split.
  - by apply prefix_app_r.
  - by apply Forall_app.
Qed.

Lemma Inv_start : Inv start.
Proof.
  split; simpl; try done.
  split; [done|]. repeat constructor. by eexists.
Qed.

Lemma Inv_settle (w : World) (i : nat) (c : Completion) :
  Inv w -> Inv (step w (Settle i c)).
Proof.
  intros HI. unfold step.
  destruct (pending w !! i) as [[k|]|] eqn:Hk; try done.
  destruct (fits k c) eqn:Hfit; [|done].
  assert (Hgk : good_task (Some k)).
  { eapply (Forall_lookup_1 _ _ _ _ (inv_tasks w HI) Hk). }
  assert (HI0 : Inv {| app := app w; pending := <[i := None]> (pending w);
                       requests := requests w |}).
  { destruct HI as [Hc Ht Hr Hf Hp]. split; simpl; try done.
    - by apply Forall_insert.
    - destruct (file (app w)); [done|].
      destruct Hf as (? & ? & Hnr). repeat split; try done.
      by apply Forall_insert. }
  destruct k as [snapshot nm|snapshot|f], c as [|[data|]| |];
    try done; try discriminate Hfit.
  - (* the answer to a query *)
    destruct data; try done;
      (unfold callback; rewrite query_then_replies by done;
       destruct HI0 as [Hc Ht Hr Hf Hp]; split; simpl; try done;
       destruct Hgk as [Hs Hn];
       rewrite (cons_middle nm); rewrite app_assoc;
       apply good_conversation_app; [|apply well_formed_replies];
       apply good_conversation_app; [done|by constructor]).
  - (* the upload is rejected *)
    destruct HI0 as [Hc Ht Hr Hf Hp]; split; simpl; try done.
    apply good_conversation_app; [done|]. repeat constructor. by eexists.
  - (* the answer to the upload is not JSON *)
    destruct HI0 as [Hc Ht Hr Hf Hp]; split; simpl; try done.
    apply good_conversation_app; [done|]. repeat constructor. by eexists.
  - (* the file has been read *)
    destruct HI as [Hc Ht Hr Hf Hp].
    destruct HI0 as [Hc0 Ht0 Hr0 Hf0 Hp0]; split; simpl in *; try done.
    + destruct (file (app w)); [done|].
      destruct Hf as (_ & _ & Hnr).
      by destruct (Forall_lookup_1 _ _ _ _ Hnr Hk).
    + rewrite length_take. lia.
Qed.

Lemma Inv_send (w : World) :
  message (app w) <> "" -> Inv w -> Inv (step w ClickSend).
Proof.
  intros E [Hc Ht Hr Hf Hp]. rewrite (step_send _ E).
  assert (Hu : well_formed (userMessage (message (app w)))) by (by eexists).
  split; simpl; try done.
  - apply good_conversation_app; [done|]. by apply Forall_singleton.
  - apply Forall_app. split; [done|]. by apply Forall_singleton.
  - apply Forall_app. split; [done|]. apply Forall_singleton. left. by eexists.
  - destruct (file (app w)); [done|].
    destruct Hf as (? & ? & Hnr). repeat split; try done.
    apply Forall_app. split; [done|]. by apply Forall_singleton.
Qed.

Lemma Inv_step (w : World) (ev : Event) : Inv w -> Inv (step w ev).
Proof.
  intros HI. destruct ev; try (by apply Inv_settle).
  - (* typing *)
    destruct HI; by split.
  - (* a key *)
    unfold step, handler, handleKeyDown.
    destruct (String.eqb key "Enter"); [|done].
    destruct (String.eqb_spec (message (app w)) "") as [E|E].
    + by rewrite (sendMessage_empty _ E).
    + fold (handler (app w) ClickSend). fold (step w ClickSend).
      by apply Inv_send.
  - (* Send *)
    destruct (String.eqb_spec (message (app w)) "") as [E|E].
    + unfold step, handler. by rewrite (sendMessage_empty _ E).
    + by apply Inv_send.
  - (* a file from the picker *)
    destruct HI as [Hc Ht Hr Hf Hp].
    destruct (first_file_cases files) as [H|(f & Hfile & E)].
    + destruct (step_rejected w files H) as [-> _]. split; simpl; try done.
      apply good_conversation_app; [done|]. repeat constructor. by eexists.
    + destruct (step_accepted w files f Hfile E) as [-> _].
      split; simpl; try done.
      * apply Forall_app. split; [done|]. by repeat apply Forall_cons_2.
      * apply Forall_app. split; [done|]. apply Forall_singleton. right. by eexists.
  - destruct HI; by split.
  - destruct HI; by split.
  - destruct HI; by split.
  - (* a drop *)
    destruct HI as [Hc Ht Hr Hf Hp].
    destruct (first_file_cases files) as [H|(f & Hfile & E)].
    + destruct (step_rejected w files H) as [_ ->]. split; simpl; try done.
      apply good_conversation_app; [done|]. repeat constructor. by eexists.
    + destruct (step_accepted w files f Hfile E) as [_ ->].
      split; simpl; try done.
      * apply Forall_app. split; [done|]. by repeat apply Forall_cons_2.
      * apply Forall_app. split; [done|]. apply Forall_singleton. right. by eexists.
  - done.
  - (* the preview button *)
    unfold step, handler.
    destruct (file (app w)) eqn:Hfile; [|exact HI].
    destruct HI as [Hc Ht Hr Hf Hp].
    split; simpl; try done.
    rewrite Hfile in Hf |- *. exact Hf.
Qed.

Lemma Inv_reachable (evs : list Event) : Inv (run start evs).
Proof. apply (run_invariant Inv); [apply Inv_step | apply Inv_start]. Qed.

(** ** The transition function follows the case table *)

Lemma step_key (w : World) (key : string) :
  step w (KeyDown key) = if String.eqb key "Enter" then step w ClickSend else w.
Proof.
  unfold step, handler, handleKeyDown. by destruct (String.eqb key "Enter").
Qed.

Lemma step_send_nothing (w : World) :
  message (app w) = "" -> step w ClickSend = w.
Proof. intros E. unfold step, handler. by rewrite (sendMessage_empty _ E). Qed.

Lemma step_fires (w : World) (ev : Event) : Fires w ev (step w ev).
Proof.
  destruct ev.
  - apply Fires_input.
  - rewrite step_key. destruct (String.eqb_spec key "Enter") as [->|Hk].
    + destruct (String.eqb_spec (message (app w)) "") as [E|E].
      * rewrite (step_send_nothing _ E). apply Fires_send_nothing; [by right|done].
      * rewrite (step_send _ E). apply Fires_send; [by right|done].
    + by apply Fires_other_key.
  - destruct (String.eqb_spec (message (app w)) "") as [E|E].
    + rewrite (step_send_nothing _ E). apply Fires_send_nothing; [by left|done].
    + rewrite (step_send _ E). apply Fires_send; [by left|done].
  - destruct (first_file_cases files) as [H|(f & Hf & E)].
    + destruct (step_rejected w files H) as [-> _]. by apply Fires_change_rejected.
    + destruct (step_accepted w files f Hf E) as [-> _].
      by apply Fires_change_accepted.
  - apply Fires_drag. by left.
  - apply Fires_drag. by right.
  - apply Fires_drag_leave.
  - destruct (first_file_cases files) as [H|(f & Hf & E)].
    + destruct (step_rejected w files H) as [_ ->]. by apply Fires_drop_rejected.
    + destruct (step_accepted w files f Hf E) as [_ ->].
      by apply Fires_drop_accepted.
  - apply Fires_click_area.
  - unfold step, handler. destruct (file (app w)) as [f|] eqn:Hf.
    + by apply (Fires_toggle w f).
    + by apply Fires_no_button.
  - unfold step.
    destruct (pending w !! i) as [[k|]|] eqn:Hk;
      try (apply Fires_nothing_pending; intros k' Hk'; congruence).
    destruct (fits k c) eqn:Hfit;
      [|apply Fires_nothing_pending; intros k' Hk'; congruence].
    destruct k as [snapshot nm|snapshot|f], c as [|[data|]| |];
      try discriminate Hfit.
    + by apply (Fires_query_failed w i snapshot nm).
    + destruct data;
        try (by apply (Fires_reply_null w i snapshot nm));
        unfold callback; rewrite query_then_replies by done;
        by apply (Fires_reply w i snapshot nm).
    + by apply (Fires_query_failed w i snapshot nm).
    + by apply (Fires_upload_failed w i snapshot).
    + by apply (Fires_upload_answered w i snapshot).
    + by apply (Fires_upload_failed w i snapshot).
    + by apply (Fires_loaded w i f).
    + by apply (Fires_read_failed w i f).
Qed.

(** A callback writes the conversation or the preview rows, and nothing
    else. *)
Lemma settle_frame (w : World) (i : nat) (c : Completion) :
  let w' := step w (Settle i c) in
  message (app w') = message (app w) /\
  file (app w') = file (app w) /\
  dragActive (app w') = dragActive (app w) /\
  showPreview (app w') = showPreview (app w) /\
  requests w' = requests w.
Proof.
  intros w'. subst w'.
  pose proof (step_fires w (Settle i c)) as H.
  remember (step w (Settle i c)) as w' eqn:Hw'.
  remember (Settle i c) as ev eqn:Hev.
  destruct H; try discriminate Hev; try done.
  all: try (destruct H as [-> | ->]; discriminate Hev).
Qed.

(** ** Invariants of the reachable states *)

(** X1. In every state the page can reach the conversation still begins
    with the greeting: callbacks may drop later messages, never the first. *)
Theorem greeting_stays_first (evs : list Event) :
  exists rest, response (app (run start evs)) = response initial ++ rest.
Proof.
  destruct (inv_conversation _ (Inv_reachable evs)) as [[rest Hrest] _].
  by exists rest.
Qed.

Lemma conversation_well_formed_aux (evs : list Event) :
  Forall well_formed (response (app (run start evs))).
Proof. apply (inv_conversation _ (Inv_reachable evs)). Qed.

(** X2. In every reachable state each message of the conversation is a
    user message with a non-empty text, a bot text message, or a
    bot-chart message whose chart is truthy and which has no text. *)
Theorem conversation_well_formed (evs : list Event) :
  Forall well_formed (response (app (run start evs))).
Proof. apply conversation_well_formed_aux. Qed.

(** X3. Every request the page has sent is the query request of a
    non-empty prompt or the upload of a file declared [text/csv]: an empty
    prompt or a file of another type never reaches the backend. *)
Theorem requests_well_formed (evs : list Event) :
  Forall good_request (requests (run start evs)).
Proof. apply (inv_requests _ (Inv_reachable evs)). Qed.

(** X4. The current-file slot holds nothing or a file declared
    [text/csv]; while it holds nothing the preview flag is off and there
    are no preview rows. *)
Theorem file_slot_holds_csv_only (evs : list Event) :
  match file (app (run start evs)) with
  | Some f => file_type f = "text/csv"
  | None => showPreview (app (run start evs)) = false /\
            csvData (app (run start evs)) = None
  end.
Proof.
  pose proof (inv_file _ (Inv_reachable evs)) as H.
  destruct (file (app (run start evs))); [done|]. by destruct H as (? & ? & _).
Qed.

(** X5. The stored preview never has more than fifty rows. *)
Theorem preview_never_exceeds_fifty (evs : list Event) :
  match csvData (app (run start evs)) with
  | Some rows => length rows <= 50
  | None => True
  end.
Proof. apply (inv_preview _ (Inv_reachable evs)). Qed.

(** X6. Whenever the preview table is rendered the preview button is
    rendered too, labelled "Hide Preview": a shown table can be hidden. *)
Theorem shown_preview_has_hide_button (evs : list Event) :
  previewShown (app (run start evs)) = true ->
  previewButton (app (run start evs)) = Some "Hide Preview".
Proof.
  pose proof (file_slot_cases := inv_file _ (Inv_reachable evs)).
  unfold previewShown, previewButton. intros Hshown.
  apply andb_prop in Hshown as [Hflag Hrows].
  destruct (file (app (run start evs))).
  - by rewrite Hflag.
  - destruct file_slot_cases as (Hoff & _ & _). congruence.
Qed.

(** X7. In every reachable state a message whose bubble is the chart
    widget hands it a truthy spec and has the bot avatar, and a message
    with the user avatar shows a non-empty string. *)
Theorem bubbles_render (evs : list Event) :
  Forall (fun msg =>
            match bubble msg with
            | VegaLite spec => truthy spec = true /\ avatar msg = botAvatar
            | Span t =>
                match avatar msg with
                | userAvatar => exists s, s <> "" /\ t = VStr s
                | botAvatar => True
                end
            end)
         (response (app (run start evs))).
Proof.
  eapply Forall_impl; [apply conversation_well_formed_aux|].
  intros msg Hwf. unfold well_formed in Hwf. unfold bubble, avatar.
  destruct (type msg).
  - destruct Hwf as (t & Ht & ->). by exists t.
  - done.
  - by destruct Hwf as (spec & Hs & ->).
Qed.

(** ** What an event can change *)

(** X8. An event sends at most one request: the query of the typed text
    when a non-empty message is sent, or the upload of the first file when
    it is declared [text/csv]; no callback sends anything (nothing is
    retried). *)
Theorem one_request_at_most (w : World) (ev : Event) :
  (requests (step w ev) = requests w \/
   (sends ev /\ message (app w) <> "" /\
    requests (step w ev) = requests w ++ [queryRequest (message (app w))]) \/
   (exists files f,
      (ev = Change files \/ ev = Drop files) /\
      files !! 0%nat = Some f /\ file_type f = "text/csv" /\
      requests (step w ev) = requests w ++ [uploadRequest f])) /\
  (forall i c, requests (step w (Settle i c)) = requests w).
Proof.
  split; [|intros i c; apply (settle_frame w i c)].
  pose proof (step_fires w ev) as H.
  remember (step w ev) as w' eqn:Hw'. clear Hw'.
  destruct H; try (by left).
  - right; left. by repeat split.
  - right; right. exists files, f. repeat split; auto.
  - right; right. exists files, f. repeat split; auto.
Qed.

(** X9. The preview rows change at one moment only: when the read of an
    accepted file completes, and then they become the first fifty rows
    parsed from that file.  Sending, answers, failures and new uploads
    leave them as they are. *)
Theorem preview_changes_only_on_load (w : World) (ev : Event) :
  csvData (app (step w ev)) = csvData (app w) \/
  exists i f,
    ev = Settle i Loaded /\
    pending w !! i = Some (Some (ReaderOnload f)) /\
    csvData (app (step w ev)) = Some (take 50 (csvParse (file_text f))).
Proof.
  pose proof (step_fires w ev) as H.
  remember (step w ev) as w' eqn:Hw'. clear Hw'.
  destruct H; try (by left).
  right. by exists i, f.
Qed.

(** X10. The input text changes by typing, which replaces it, and by
    sending a non-empty message, which empties it; by nothing else. *)
Theorem input_changes_by_typing_or_send (w : World) (ev : Event) :
  message (app (step w ev)) = message (app w) \/
  (exists value, ev = Input value /\ message (app (step w ev)) = value) \/
  (sends ev /\ message (app (step w ev)) = "").
Proof.
  pose proof (step_fires w ev) as H.
  remember (step w ev) as w' eqn:Hw'. clear Hw'.
  destruct H; try (by left).
  - right; left. by eexists.
  - right; right. by split.
Qed.

(** X11. The current file is never cleared: an event leaves it as it
    is, or is a picker change or drop whose first file is declared
    [text/csv], and that file takes the slot. *)
Theorem file_replaced_only_by_csv (w : World) (ev : Event) :
  file (app (step w ev)) = file (app w) \/
  exists files f,
    (ev = Change files \/ ev = Drop files) /\
    files !! 0%nat = Some f /\ file_type f = "text/csv" /\
    file (app (step w ev)) = Some f.
Proof.
  pose proof (step_fires w ev) as H.
  remember (step w ev) as w' eqn:Hw'. clear Hw'.
  destruct H; try (by left).
  - right. exists files, f. repeat split; auto.
  - right. exists files, f. repeat split; auto.
Qed.

(** X12. The drag-active flag after an event: set by a drag entering or
    moving over the area, cleared by a drag leaving and by every drop
    (accepted or not), and otherwise what it was. *)
Theorem drag_flag_follows_drag_events (w : World) (ev : Event) :
  dragActive (app (step w ev)) =
    match ev with
    | DragEnter | DragOver => true
    | DragLeave | Drop _ => false
    | _ => dragActive (app w)
    end.
Proof.
  pose proof (step_fires w ev) as H.
  remember (step w ev) as w' eqn:Hw'. clear Hw'.
  destruct H; try done.
  - by destruct H as [-> | ->].
  - by destruct H as [-> | ->].
  - by destruct H as [-> | ->].
Qed.

(** ** Uploads, reads and answers: the edges *)

(** X13. A file declared [text/csv] is accepted: it takes the
    current-file slot, one read of it is started and one upload request
    is sent, a POST to the upload endpoint with the file as the form
    field [file]; the upload callback keeps the conversation of this
    moment.  Conversation, input text, preview rows and preview flag are
    untouched; a drop also clears the drag-active flag. *)
Theorem csv_file_accepted (w : World) (files : list File) (f : File) :
  files !! 0%nat = Some f ->
  file_type f = "text/csv" ->
  let accepted drag :=
    {| app := mkApp (message (app w)) (response (app w)) (Some f) drag
                    (csvData (app w)) (showPreview (app w));
       pending := pending w ++
         [Some (ReaderOnload f); Some (UploadCatch (response (app w)))];
       requests := requests w ++
         [{| req_url := (url ++ "uploadfile/")%string;
             req_method := "POST";
             req_body := FormBody [("file", f)];
             req_headers := [] |}] |} in
  step w (Change files) = accepted (dragActive (app w)) /\
  step w (Drop files) = accepted false /\
  ended (handleFileUpload (app w) files) = Returned tt /\
  ended (handleDrop (app w) files) = Returned tt.
Proof.
  intros Hf E accepted. subst accepted.
  destruct (step_accepted w files f Hf E) as [Hc Hd].
  destruct (accepted_commands (app w) files f Hf E) as [-> ->].
  by rewrite Hc, Hd.
Qed.

(** X14. Only the first file of a selection or drop counts: the others
    are neither checked, nor read, nor uploaded. *)
Theorem only_first_file_counts (w : World) (f : File) (others : list File) :
  step w (Change (f :: others)) = step w (Change [f]) /\
  step w (Drop (f :: others)) = step w (Drop [f]).
Proof. by split. Qed.

(** X15. The answer to an upload is ignored whatever it holds: once the
    body has decoded, no state variable changes and nothing is sent, so a
    backend that reports an error in a JSON body goes unnoticed. *)
Theorem upload_answer_ignored (w : World) (i : nat) (snapshot : list Message)
    (data : json) :
  pending w !! i = Some (Some (UploadCatch snapshot)) ->
  app (step w (Settle i (Answered (Some data)))) = app w /\
  requests (step w (Settle i (Answered (Some data)))) = requests w.
Proof. intros H. unfold step. by rewrite H. Qed.

(** X16. A read that fails is dropped in silence: the file stays in the
    current-file slot (so the preview button is rendered), the preview
    rows are those of before, no message is added, and the upload goes on. *)
Theorem read_failure_silent (w : World) (files : list File) (f : File)
    (ev : Event) :
  files !! 0%nat = Some f ->
  file_type f = "text/csv" ->
  ev = Change files \/ ev = Drop files ->
  let w1 := step w ev in
  let w2 := step w1 (Settle (length (pending w)) ReadFailed) in
  app w2 = app w1 /\
  requests w2 = requests w1 /\
  file (app w2) = Some f /\
  csvData (app w2) = csvData (app w) /\
  response (app w2) = response (app w) /\
  pending w2 !! S (length (pending w)) =
    Some (Some (UploadCatch (response (app w)))).
Proof.
  intros Hf E Hev w1 w2.
  destruct (step_accepted w files f Hf E) as [Hc Hd].
  assert (Hk : pending w1 !! length (pending w) = Some (Some (ReaderOnload f))).
  { subst w1. destruct Hev as [-> | ->]; rewrite ?Hc, ?Hd; simpl;
      rewrite lookup_app_r by lia; by rewrite Nat.sub_diag. }
  assert (H2 : w2 = taken w1 (length (pending w))).
  { subst w2. unfold step. by rewrite Hk. }
  rewrite H2. subst w1.
  destruct Hev as [-> | ->]; rewrite ?Hc, ?Hd; simpl; repeat split;
    rewrite list_lookup_insert_ne by lia;
    rewrite lookup_app_r by lia;
    by replace (S (length (pending w)) - length (pending w)) with 1 by lia.
Qed.

(** X17. A query answered with the JSON value [null]: the callback
    throws while reading [data.response], before any update, so no state
    variable changes and the user message stays without an answer. *)
Theorem null_body_throws (w : World) (i : nat) (snapshot : list Message)
    (newMessage : Message) :
  pending w !! i = Some (Some (QueryThen snapshot newMessage)) ->
  callback (QueryThen snapshot newMessage) (Answered (Some JNull))
    = mkM [] (Thrown "TypeError") /\
  app (step w (Settle i (Answered (Some JNull)))) = app w /\
  requests (step w (Settle i (Answered (Some JNull)))) = requests w.
Proof. intros H. unfold step. by rewrite H. Qed.

(** X18. A decoded body, not [null], without a [response] property: the
    conversation ends with a bot text message whose text is [undefined]. *)
Theorem missing_response_text_undefined (w : World) (i : nat)
    (snapshot : list Message) (newMessage : Message) (data : json) :
  pending w !! i = Some (Some (QueryThen snapshot newMessage)) ->
  data <> JNull ->
  has_field data "response" = false ->
  last (response (app (step w (Settle i (Answered (Some data))))))
    = Some (botText VUndefined).
Proof.
  intros H Hnn Hno. rewrite (settle_query _ _ _ _ _ H Hnn). simpl.
  unfold replies. rewrite (no_field_undefined _ _ Hno).
  destruct (truthy (field data "chart")).
  - rewrite (cons_middle newMessage), app_assoc.
    by rewrite last_app.
  - rewrite (cons_middle newMessage), app_assoc.
    by rewrite last_app.
Qed.

(** X19. The preview follows the read that completes last, not the file
    chosen last: with two accepted files whose reads complete in the
    opposite order, the slot holds the second file and the preview shows
    the rows of the first. *)
Theorem last_read_wins (w : World) (fA fB : File) :
  file_type fA = "text/csv" ->
  file_type fB = "text/csv" ->
  let k := length (pending w) in
  let w' := run w [Change [fA]; Change [fB];
                   Settle (k + 2) Loaded; Settle k Loaded] in
  file (app w') = Some fB /\
  csvData (app w') = Some (take 50 (csvParse (file_text fA))).
Proof.
  intros EA EB k w'. subst w'. unfold run. cbn [foldl].
  destruct (step_accepted w [fA] fA eq_refl EA) as [-> _].
  set (w1 := {| app := _ |}).
  destruct (step_accepted w1 [fB] fB eq_refl EB) as [-> _].
  set (w2 := {| app := _ |}).
  assert (HA : pending w2 !! k = Some (Some (ReaderOnload fA))).
  { subst w2 w1 k. simpl. rewrite <- app_assoc.
    rewrite lookup_app_r by lia. by rewrite Nat.sub_diag. }
  assert (HB : pending w2 !! (k + 2) = Some (Some (ReaderOnload fB))).
  { subst w2 w1 k. simpl. rewrite <- app_assoc.
    rewrite lookup_app_r by lia.
    by replace (length (pending w) + 2 - length (pending w)) with 2 by lia. }
  set (w3 := step w2 (Settle (k + 2) Loaded)).
  assert (HA3 : pending w3 !! k = Some (Some (ReaderOnload fA))).
  { apply step_keeps; [|done]. simpl. apply Nat.eqb_neq. lia. }
  split.
  - destruct (settle_frame w3 k Loaded) as (_ & -> & _). subst w3.
    by destruct (settle_frame w2 (k + 2) Loaded) as (_ & -> & _).
  - by apply settle_reader.
Qed.

(** ** Typing, sending, toggling *)

(** X20. What is sent is what was typed last: typing a non-empty text
    and sending adds the user message with that text, sends the query for
    it and leaves the input empty, whatever the input held before. *)
Theorem typed_text_is_sent (w : World) (t : string) :
  t <> "" ->
  let w' := run w [Input t; ClickSend] in
  response (app w') =
    response (app w) ++
      [{| type := user; text := VJson (JStr t); chartSpec := VUndefined |}] /\
  requests w' = requests w ++ [queryRequest t] /\
  message (app w') = "".
Proof.
  intros Ht w'. subst w'. unfold run. cbn [foldl].
  by rewrite step_send.
Qed.

(** X21. Sending twice in a row sends once: the first call has emptied
    the input, so the second does nothing. *)
Theorem send_twice_sends_once (w : World) :
  step (step w ClickSend) ClickSend = step w ClickSend.
Proof.
  apply step_send_nothing.
  destruct (String.eqb_spec (message (app w)) "") as [E|E].
  - by rewrite (step_send_nothing _ E).
  - by rewrite (step_send _ E).
Qed.

(** X22. The preview button toggles: two clicks bring the page back to
    where it was (and without a file there is no button to click). *)
Theorem toggle_twice_restores (w : World) :
  step (step w ClickPreview) ClickPreview = w /\
  match file (app w) with
  | Some _ => showPreview (app (step w ClickPreview)) = negb (showPreview (app w))
  | None => step w ClickPreview = w
  end.
Proof.
  destruct w as [[m r f d c s] p q]. unfold step, handler, dispatch. simpl.
  destruct f; simpl; [|done].
  by rewrite negb_involutive.
Qed.

(** X24. One exchange at a time appends: typing a non-empty text,
    sending it and receiving the answer (a decoded body other than
    [null]) before any other event makes the conversation the one of
    before, the user message and the bot message or messages of the
    answer: two messages more, or three with a chart. *)
Theorem sequential_exchange_appends (w : World) (t : string) (data : json) :
  t <> "" ->
  data <> JNull ->
  let w' := run w [Input t; ClickSend;
                   Settle (length (pending w)) (Answered (Some data))] in
  response (app w') =
    response (app w) ++
      {| type := user; text := VJson (JStr t); chartSpec := VUndefined |}
      :: replies data /\
  message (app w') = "" /\
  (length (response (app w')) = length (response (app w)) + 2 \/
   length (response (app w')) = length (response (app w)) + 3).
Proof.
  intros Ht Hnn w'.
  assert (Hresp : response (app w')
                  = response (app w) ++ userMessage t :: replies data).
  { subst w'. by apply (fold_in (step w (Input t)) [] data). }
  split; [done|]. split.
  - subst w'. unfold run. cbn [foldl].
    destruct (settle_frame (step (step w (Input t)) ClickSend)
                (length (pending w)) (Answered (Some data))) as (-> & _).
    by rewrite step_send.
  - rewrite Hresp, length_app. unfold replies.
    destruct (truthy (field data "chart")); simpl; lia.
Qed.

End Client.

(** * The properties on sample sessions

    The production bundle, with a parser that finds the same two rows
    (or sixty rows) in every file. *)

Lemma send_empty_or_one_query_witness :
  step "production" two_rows start ClickSend = start /\
  response (app (step "production" two_rows
                      (run "production" two_rows start [Input " "])
                      (KeyDown "Enter")))
  = response initial ++
      [{| type := user; text := VJson (JStr " "); chartSpec := VUndefined |}].
Proof.
  split.
  - apply (send_empty_or_one_query "production" two_rows start ClickSend);
      [by left | reflexivity].
  - destruct (send_empty_or_one_query "production" two_rows
                (run "production" two_rows start [Input " "]) (KeyDown "Enter"))
      as [_ H]; [by right|].
    destruct H as (_ & H & _); [discriminate|]. exact H.
Defined.

Lemma input_cleared_at_dispatch_witness :
  message (app (run "production" two_rows start [Input "plot it"])) = "plot it" /\
  message (app (run "production" two_rows
                    (step "production" two_rows
                          (run "production" two_rows start [Input "plot it"])
                          ClickSend)
                    [Settle 0 Rejected])) = "".
Proof.
  split; [reflexivity|].
  apply (input_cleared_at_dispatch "production" two_rows
           (run "production" two_rows start [Input "plot it"]) ClickSend
           [Settle 0 Rejected]).
  - by left.
  - discriminate.
  - repeat constructor.
Defined.

Lemma query_failure_dropped_witness :
  app (step "production" two_rows (asked "production" two_rows)
            (Settle 0 (Answered None)))
  = app (asked "production" two_rows).
Proof.
  destruct (query_failure_dropped "production" two_rows
              (run "production" two_rows start [Input "plot it"]) []
              (Answered None))
    as (_ & Happ & _); [discriminate | constructor | reflexivity |].
  exact Happ.
Defined.

(** The first of two overlapping questions is answered last: the second
    question and its chart are not in the conversation any more. *)
Lemma response_folds_into_send_snapshot_witness :
  response (app (run "production" two_rows
     (step "production" two_rows
           (run "production" two_rows start [Input "a"]) ClickSend)
     ([Input "b"; ClickSend; Settle 1 (Answered (Some chart_reply))]
      ++ [Settle 0 (Answered (Some text_reply))])))
  = response initial ++ [userMessage "a"; botText (VStr "hi there")].
Proof.
  destruct (response_folds_into_send_snapshot "production" two_rows
              (run "production" two_rows start [Input "a"])
              [Input "b"; ClickSend; Settle 1 (Answered (Some chart_reply))]
              text_reply)
    as [H _]; [discriminate | repeat constructor | discriminate |].
  exact H.
Defined.







Lemma preview_is_first_fifty_rows_witness :
  csvData (app (run "production" two_rows start
                    [Change [data_csv]; Settle 0 Loaded]))
  = Some (two_rows (file_text data_csv)) /\
  (exists preview,
     csvData (app (run "production" sixty_rows start
                       [Drop [data_csv]; Settle 0 Loaded])) = Some preview /\
     length preview = 50 /\
     preview !! 49%nat = sixty_rows (file_text data_csv) !! 49%nat).
Proof.
  split.
  - destruct (preview_is_first_fifty_rows "production" two_rows start
                [data_csv] data_csv (Change [data_csv]) [])
      as (preview & Hcsv & Hle & _);
      [reflexivity | reflexivity | by left | constructor |].
    destruct Hle as [Hrows _]; [simpl; lia|].
    rewrite <- Hrows. exact Hcsv.
  - destruct (preview_is_first_fifty_rows "production" sixty_rows start
                [data_csv] data_csv (Drop [data_csv]) [])
      as (preview & Hcsv & _ & Hgt);
      [reflexivity | reflexivity | by right | constructor |].
    destruct Hgt as (Hlen & _ & Hnth); [simpl; lia|].
    exists preview. split; [exact Hcsv|]. split; [exact Hlen|].
    apply Hnth. lia.
Defined.


(** C3 against the code. The user sends "a", then "b" before any answer;
    the conversation is greeting, "a", "b".  The answer to "a" arrives:
    the callback sets the conversation to greeting, "a", answer, and the
    message "b" is gone: the conversation before is not a prefix of the
    conversation after. *)
Theorem overlapping_reply_removes_message :
  let before := run "production" two_rows start two_sends in
  let after := step "production" two_rows before
                    (Settle 0 (Answered (Some text_reply))) in
  response (app before) = response initial ++ [userMessage "a"; userMessage "b"] /\
  response (app after)
    = response initial ++ [userMessage "a"; botText (VStr "hi there")] /\
  ~ (response (app before) `prefix_of` response (app after)).
Proof.
  cbv zeta. split; [reflexivity|]. split; [reflexivity|].
  intros [rest Hrest]. vm_compute in Hrest. discriminate Hrest.
Qed.

(** * Further sample sessions *)

Lemma shown_preview_has_hide_button_witness :
  previewShown (app (run "production" two_rows start
                         [Change [data_csv]; Settle 0 Loaded; ClickPreview])) = true /\
  previewButton (app (run "production" two_rows start
                          [Change [data_csv]; Settle 0 Loaded; ClickPreview]))
  = Some "Hide Preview".
Proof.
  split; [reflexivity|].
  apply (shown_preview_has_hide_button "production" two_rows
           [Change [data_csv]; Settle 0 Loaded; ClickPreview]).
  reflexivity.
Defined.

Lemma csv_file_accepted_witness :
  file (app (step "production" two_rows (hovering "production" two_rows)
                  (Drop [data_csv; notes_txt]))) = Some data_csv /\
  dragActive (app (step "production" two_rows (hovering "production" two_rows)
                        (Drop [data_csv; notes_txt]))) = false /\
  length (requests (step "production" two_rows (hovering "production" two_rows)
                         (Drop [data_csv; notes_txt]))) = 1.
Proof.
  destruct (csv_file_accepted "production" two_rows
              (hovering "production" two_rows) [data_csv; notes_txt] data_csv)
    as (_ & Hdrop & _); [reflexivity | reflexivity |].
  rewrite Hdrop. repeat split.
Defined.

Lemma upload_answer_ignored_witness :
  app (run "production" two_rows start
           [Change [data_csv]; Settle 1 (Answered (Some text_reply))])
  = app (run "production" two_rows start [Change [data_csv]]).
Proof.
  destruct (upload_answer_ignored "production" two_rows
              (run "production" two_rows start [Change [data_csv]]) 1
              (response initial) text_reply)
    as [Happ _]; [reflexivity|].
  exact Happ.
Defined.

Lemma read_failure_silent_witness :
  file (app (run "production" two_rows start
                 [Change [data_csv]; Settle 0 ReadFailed]))
  = Some data_csv /\
  csvData (app (run "production" two_rows start
                    [Change [data_csv]; Settle 0 ReadFailed])) = None.
Proof.
  destruct (read_failure_silent "production" two_rows start
              [data_csv] data_csv (Change [data_csv]))
    as (_ & _ & Hfile & Hrows & _); [reflexivity | reflexivity | by left |].
  split; [exact Hfile | exact Hrows].
Defined.

Lemma null_body_throws_witness :
  app (step "production" two_rows (asked "production" two_rows)
            (Settle 0 (Answered (Some JNull))))
  = app (asked "production" two_rows).
Proof.
  destruct (null_body_throws "production" two_rows
              (asked "production" two_rows) 0 (response initial)
              (userMessage "plot it"))
    as (_ & Happ & _); [reflexivity|].
  exact Happ.
Defined.

Lemma missing_response_text_undefined_witness :
  last (response (app (step "production" two_rows (asked "production" two_rows)
                            (Settle 0 (Answered (Some (JObj [("answer", JStr "hi")])))))))
  = Some (botText VUndefined).
Proof.
  apply (missing_response_text_undefined "production" two_rows
           (asked "production" two_rows) 0 (response initial)
           (userMessage "plot it") (JObj [("answer", JStr "hi")]));
    [reflexivity | discriminate | reflexivity].
Defined.

Lemma last_read_wins_witness :
  file (app (run "production" one_cell start
                 [Change [data_csv]; Change [other_csv];
                  Settle 2 Loaded; Settle 0 Loaded])) = Some other_csv /\
  csvData (app (run "production" one_cell start
                    [Change [data_csv]; Change [other_csv];
                     Settle 2 Loaded; Settle 0 Loaded]))
  = Some (one_cell (file_text data_csv)).
Proof.
  apply (last_read_wins "production" one_cell start data_csv other_csv);
    reflexivity.
Defined.

Lemma typed_text_is_sent_witness :
  response (app (run "production" two_rows (asked "production" two_rows)
                     [Input "and a pie"; ClickSend]))
  = response (app (asked "production" two_rows)) ++
      [{| type := user; text := VJson (JStr "and a pie");
          chartSpec := VUndefined |}].
Proof.
  destruct (typed_text_is_sent "production" two_rows
              (asked "production" two_rows) "and a pie")
    as (Hresp & _); [discriminate|].
  exact Hresp.
Defined.

Lemma user_event_extends_witness :
  response (app (asked "production" two_rows))
    `prefix_of`
  response (app (step "production" two_rows (asked "production" two_rows)
                      (Drop [notes_txt]))).
Proof.
  apply (user_event_extends "production" two_rows
           (asked "production" two_rows) (Drop [notes_txt])).
  reflexivity.
Defined.

Lemma sequential_exchange_appends_witness :
  response (app (run "production" two_rows start
                     [Input "hello"; ClickSend; Settle 0 (Answered (Some text_reply))]))
  = response initial ++
      [{| type := user; text := VJson (JStr "hello"); chartSpec := VUndefined |};
       {| type := bot; text := VJson (JStr "hi there"); chartSpec := VUndefined |}].
Proof.
  destruct (sequential_exchange_appends "production" two_rows start "hello" text_reply)
    as (Hresp & _); [discriminate | discriminate |].
  exact Hresp.
Defined.

(** * The preview and the parser *)

Lemma put_keys {V W : Type} (k : string) (v : V) (v' : W)
    (o : list (string * V)) (o' : list (string * W)) :
  map fst o = map fst o' -> map fst (put k v o) = map fst (put k v' o').
Proof.
  revert o'. induction o as [|[k1 v1] o IH]; intros [|[k2 v2] o'] H;
    simpl in *; try done.
  injection H as -> H.
  destruct (String.eqb k2 k); simpl; [by rewrite H|].
  destruct (goes_before k k2); simpl; [by rewrite H|].
  by rewrite (IH o' H).
Qed.

Lemma converter_keys (columns : list (nat * string)) (d d' : list string)
    (o o' : list (string * string)) :
  map fst o = map fst o' ->
  map fst (fold_left
             (fun o '(i, name) =>
                if String.eqb name "__proto__" then o else put name (nth i d "") o)
             columns o)
  = map fst (fold_left
               (fun o '(i, name) =>
                  if String.eqb name "__proto__" then o else put name (nth i d' "") o)
               columns o').
Proof.
  revert o o'. induction columns as [|[i name] columns IH]; intros o o' H;
    simpl; [done|].
  apply IH. destruct (String.eqb name "__proto__"); [done|].
  by apply put_keys.
Qed.

(** The names of a row and their order depend on the header alone. *)
Lemma row_keys (autoTypeValue : string -> Cell) (columns d : list string) :
  map fst (autoType autoTypeValue (objectConverter columns d)) = own_keys columns.
Proof.
  unfold autoType. rewrite map_map.
  rewrite (map_ext _ fst) by done.
  unfold own_keys, objectConverter. by apply converter_keys.
Qed.

Lemma put_fresh {V : Type} (k : string) (v : V) (o : list (string * V)) :
  array_index k = None -> k ∉ map fst o -> put k v o = o ++ [(k, v)].
Proof.
  intros Hk. induction o as [|[k' v'] o IH]; intros Hnew; simpl; [done|].
  simpl in Hnew. apply not_elem_of_cons in Hnew as [Hne Hnew].
  destruct (String.eqb_spec k' k) as [E|_]; [congruence|].
  unfold goes_before. rewrite Hk. by rewrite (IH Hnew).
Qed.

Lemma plain_columns_in_order (d : list string) (columns : list string)
    (s : nat) (o : list (string * string)) :
  NoDup (map fst o ++ columns) ->
  Forall (fun c => array_index c = None /\ c <> "__proto__") columns ->
  map fst (fold_left
             (fun o '(i, name) =>
                if String.eqb name "__proto__" then o else put name (nth i d "") o)
             (combine (seq s (length columns)) columns) o)
  = map fst o ++ columns.
Proof.
  revert s o. induction columns as [|c columns IH]; intros s o Hnd Hall; simpl.
  - by rewrite app_nil_r.
  - apply Forall_cons in Hall as [[Hidx Hproto] Hall].
    destruct (String.eqb_spec c "__proto__") as [E|_]; [done|].
    assert (Hnew : c ∉ map fst o).
    { apply NoDup_app in Hnd as (_ & Hdisj & _).
      intros Hin. apply (Hdisj c Hin). by left. }
    rewrite (put_fresh _ _ _ Hidx Hnew).
    rewrite IH; [|by rewrite map_app, <- app_assoc|done].
    by rewrite map_app, <- app_assoc.
Qed.

Lemma plain_header_keys (columns : list string) :
  plain_header columns -> own_keys columns = columns.
Proof.
  intros [Hnd Hall]. unfold own_keys, objectConverter.
  by rewrite (plain_columns_in_order [] columns 0 []).
Qed.

(** *** Texts without quoting are split at their newlines and commas *)

Lemma not_special (c : ascii) :
  negb (special c) = true ->
  Ascii.eqb c QUOTE = false /\ Ascii.eqb c NEWLINE = false /\
  Ascii.eqb c RETURN = false /\ Ascii.eqb c DELIMITER = false.
Proof.
  unfold special. intros H. apply negb_true_iff in H.
  repeat (apply orb_false_iff in H as [H ?]). by repeat split.
Qed.

Lemma scan_plain_chars (beyond cs : list ascii) (field : list ascii)
    (row : list string) (rest : list ascii) :
  forallb (fun c => negb (special c)) cs = true ->
  scan beyond InPlain field row (cs ++ rest)
  = scan beyond InPlain (field ++ cs) row rest.
Proof.
  revert field. induction cs as [|c cs IH]; intros field Hcs; simpl.
  - by rewrite app_nil_r.
  - simpl in Hcs. apply andb_prop in Hcs as [Hc Hcs].
    destruct (not_special c Hc) as (_ & -> & -> & ->).
    rewrite (IH _ Hcs). by rewrite <- app_assoc.
Qed.

Lemma scan_start_as_plain (beyond : list ascii) (row : list string)
    (l : list ascii) :
  match l with c :: _ => Ascii.eqb c QUOTE = false | [] => True end ->
  scan beyond FieldStart [] row l = scan beyond InPlain [] row l.
Proof. destruct l as [|c l]; simpl; [done|]. by intros ->. Qed.

Lemma scan_plain_field (beyond : list ascii) (s : string) (row : list string)
    (rest : list ascii) :
  plain_field s ->
  match rest with c :: _ => Ascii.eqb c QUOTE = false | [] => True end ->
  scan beyond FieldStart [] row (list_ascii_of_string s ++ rest)
  = scan beyond InPlain (list_ascii_of_string s) row rest.
Proof.
  intros Hs Hrest. rewrite scan_start_as_plain.
  - by rewrite (scan_plain_chars _ _ [] _ _ Hs).
  - unfold plain_field in Hs. destruct (list_ascii_of_string s) as [|c cs]; [done|].
    simpl in *. apply andb_prop in Hs as [Hc _]. by destruct (not_special c Hc).
Qed.

Lemma scan_plain_record (beyond : list ascii) (fields : list string)
    (row : list string) :
  plain_record fields ->
  scan beyond FieldStart [] row (format_record fields) = [row ++ fields] /\
  forall rest,
    scan beyond FieldStart [] row (format_record fields ++ NEWLINE :: rest)
    = (row ++ fields) :: scan beyond FieldStart [] [] rest.
Proof.
  intros [Hne Hall]. revert row.
  induction fields as [|s fields IH]; intros row; [done|].
  apply Forall_cons in Hall as [Hs Hall].
  destruct fields as [|s' fields].
  - simpl format_record. split.
    + rewrite <- (app_nil_r (list_ascii_of_string s)).
      rewrite (scan_plain_field _ _ _ [] Hs I). simpl.
      by rewrite string_of_list_ascii_of_string.
    + intros rest.
      rewrite (scan_plain_field _ _ _ (NEWLINE :: rest) Hs eq_refl). simpl.
      by rewrite string_of_list_ascii_of_string.
  - assert (Hstep : forall rest,
      scan beyond FieldStart [] row
           (format_record (s :: s' :: fields) ++ rest)
      = scan beyond FieldStart [] (row ++ [s]) (format_record (s' :: fields) ++ rest)).
    { intros rest. change (format_record (s :: s' :: fields))
        with (list_ascii_of_string s ++ DELIMITER :: format_record (s' :: fields)).
      rewrite <- app_assoc.
      rewrite (scan_plain_field _ _ _
                 ((DELIMITER :: format_record (s' :: fields)) ++ rest) Hs eq_refl).
      simpl. by rewrite string_of_list_ascii_of_string. }
    destruct (IH ltac:(done) Hall (row ++ [s])) as [IHend IHline].
    split.
    + rewrite <- (app_nil_r (format_record _)), Hstep, app_nil_r, IHend.
      by rewrite <- app_assoc.
    + intros rest. rewrite Hstep, IHline. by rewrite <- app_assoc.
Qed.

Lemma scan_plain_text (beyond : list ascii) (init : list (list string))
    (final : list string) :
  Forall plain_record init -> plain_record final ->
  scan beyond FieldStart [] []
       (concat (map (fun r => format_record r ++ [NEWLINE]) init)
        ++ format_record final)
  = init ++ [final].
Proof.
  intros Hinit Hfinal. induction init as [|r init IH]; simpl.
  - by destruct (scan_plain_record beyond final [] Hfinal) as [-> _].
  - apply Forall_cons in Hinit as [Hr Hinit].
    rewrite <- !app_assoc. simpl.
    destruct (scan_plain_record beyond r [] Hr) as [_ ->].
    by rewrite (IH Hinit).
Qed.

Lemma format_record_chars (fields : list string) :
  Forall plain_field fields ->
  Forall (fun c => c <> NEWLINE /\ c <> RETURN) (format_record fields).
Proof.
  assert (Hfield : forall s, plain_field s ->
            Forall (fun c => c <> NEWLINE /\ c <> RETURN) (list_ascii_of_string s)).
  { intros s Hs. unfold plain_field in Hs.
    induction (list_ascii_of_string s) as [|c cs IH]; [done|].
    simpl in Hs. apply andb_prop in Hs as [Hc Hcs].
    destruct (not_special c Hc) as (_ & Hn & Hr & _).
    constructor; [|by apply IH].
    split; intros ->; [by vm_compute in Hn | by vm_compute in Hr]. }
  induction fields as [|s fields IH]; intros Hall; [done|].
  apply Forall_cons in Hall as [Hs Hall].
  destruct fields as [|s' fields]; [by apply Hfield|].
  change (format_record (s :: s' :: fields))
    with (list_ascii_of_string s ++ DELIMITER :: format_record (s' :: fields)).
  apply Forall_app. split; [by apply Hfield|].
  constructor; [by split|]. by apply IH.
Qed.

Lemma format_record_nonempty (fields : list string) :
  fields <> [] -> fields <> [""] -> format_record fields <> [].
Proof.
  destruct fields as [|s [|s' fields]]; try done.
  - intros _ Hs. simpl. destruct s; [done|]. done.
  - intros _ _. simpl. by destruct (list_ascii_of_string s).
Qed.

Lemma unstripped_same (chars : list ascii) (c : ascii) :
  last chars = Some c -> c <> NEWLINE -> c <> RETURN ->
  unstripped chars = chars.
Proof.
  intros Hlast Hn Hr. unfold unstripped, strip_last. rewrite Hlast.
  destruct (Ascii.eqb_spec c NEWLINE); [done|]. rewrite Hlast.
  by destruct (Ascii.eqb_spec c RETURN).
Qed.

(** The rows of a text without quoting whose last line is not empty are
    its lines, each cut at its commas. *)
Lemma parseRows_plain_text (init : list (list string)) (final : list string) :
  Forall plain_record init -> plain_record final -> final <> [""] ->
  parseRows (format_text init final) = init ++ [final].
Proof.
  intros Hinit Hfinal Hlastline. unfold parseRows, format_text.
  rewrite list_ascii_of_string_of_list_ascii.
  set (before := concat (map (fun r => format_record r ++ [NEWLINE]) init)).
  destruct Hfinal as [Hne Hall].
  pose proof (format_record_nonempty final Hne Hlastline) as Hnonempty.
  pose proof (format_record_chars final Hall) as Hchars.
  destruct (last (format_record final)) as [c|] eqn:Hlast;
    [|by apply last_None in Hlast].
  assert (Hc : c <> NEWLINE /\ c <> RETURN).
  { apply (Forall_forall (A:=ascii)) with (x := c) in Hchars; [done|].
    by apply last_Some_elem_of. }
  assert (Hlast' : last (before ++ format_record final) = Some c).
  { by rewrite last_app, Hlast. }
  rewrite (unstripped_same _ c Hlast') by apply Hc.
  destruct (before ++ format_record final) eqn:Htext.
  - by apply app_eq_nil in Htext as [_ ?].
  - rewrite <- Htext. by apply scan_plain_text.
Qed.

Lemma d3_rows_records (autoTypeValue : string -> Cell) (text : string)
    (columns : list string) (data : list (list string)) :
  parseRows text = columns :: data ->
  (length (List.filter (String.eqb "__proto__") columns) <= 1)%nat ->
  d3_csvParse autoTypeValue text
    = Returned (map (fun d => autoType autoTypeValue (objectConverter columns d)) data)
  /\ d3_rows autoTypeValue text
    = map (fun d => autoType autoTypeValue (objectConverter columns d)) data.
Proof.
  intros Hrows Hproto. unfold d3_rows, d3_csvParse. rewrite Hrows.
  destruct (Nat.leb_spec 2 (length (List.filter (String.eqb "__proto__") columns)));
    [lia|done].
Qed.




(** C7 against the code. A file is accepted, then the user sends "a";
    the conversation is greeting, "a".  The upload fails: the [catch]
    callback sets the conversation to greeting, error message, and the
    message "a" is gone: the error was not added to the conversation as
    it stood.  The preview rows are untouched. *)
Theorem upload_failure_removes_message :
  let before := run "production" two_rows start
                    [Change [data_csv]; Input "a"; ClickSend] in
  let after := step "production" two_rows before (Settle 1 Rejected) in
  response (app before)
    = response initial ++
        [{| type := user; text := VJson (JStr "a"); chartSpec := VUndefined |}] /\
  response (app after)
    = response initial ++
        [{| type := bot; text := VJson (JStr "Error processing file.");
            chartSpec := VUndefined |}] /\
  ~ (response (app before) `prefix_of` response (app after)) /\
  csvData (app after) = csvData (app before).
Proof.
  cbv zeta. split; [reflexivity|]. split; [reflexivity|]. split; [|reflexivity].
  intros [rest Hrest]. vm_compute in Hrest. discriminate Hrest.
Qed.
